(** * Biomarker selection notebook (cll_t2d_common_analysis): a shallow embedding

    The notebook is a straight-line script over the global namespace of a
    Python kernel.  Its own logic is tabular bookkeeping: building, sorting
    and filtering the three importance tables, intersecting the three sets of
    retained names, compiling the score table, grouping the raw values by
    label and writing two CSV files.  The statistical work is done by calls
    into scikit-learn, SciPy and pandas' reader; those calls are the fields
    of [Runtime] below and are applied exactly where the notebook applies
    them.

    Numbers: a finite float is a rational, so the numeric columns are lists
    of [Q]; the ranks of [rfe.ranking_] are integers ([Z]) which enter the
    'Importance' column through [inject_Z].  The t-test may answer NaN, so
    its two results are [scalar]s. *)

From Stdlib Require Import QArith Qabs.
From stdpp Require Import base option list sorting gmap strings.

Local Close Scope Q_scope.
Local Open Scope string_scope.

(** ** Exceptions *)

Inductive exn := KeyError | ValueError | IndexError | FileNotFoundError.

Inductive result (A : Type) : Type :=
  | Ok (a : A)
  | Raise (e : exn).
Arguments Ok {A} a.
Arguments Raise {A} e.

#[export] Instance result_ret : MRet result := λ A a, Ok a.
#[export] Instance result_bind : MBind result := λ A B f m,
  match m with
  | Ok a => f a
  | Raise e => Raise e
  end.

(** A [for] loop that appends one element per iteration to a list that
    starts empty; the first exception leaves the loop. *)
Fixpoint for_each {A B} (f : A → result B) (l : list A) : result (list B) :=
  match l with
  | [] => Ok []
  | a :: l' => b ← f a; bs ← for_each f l'; Ok (b :: bs)
  end.

(** ** Decidable comparisons on [Q] *)

#[export] Instance Qle_dec (a b : Q) : Decision (a <= b)%Q := Z.le_dec _ _.
#[export] Instance Qlt_dec (a b : Q) : Decision (a < b)%Q := Z.lt_dec _ _.
#[export] Instance Qeq_decision (a b : Q) : Decision (a == b)%Q := Z.eq_dec _ _.

(** ** The input frame: named numeric columns

    A frame is the list of its columns, left to right.  [pd.read_csv] gives
    the columns of a file distinct names, so looking a name up finds one
    column. *)

Definition Series := list Q.
Definition Frame := list (string * Series).

(** [df.columns] *)
Definition columns (df : Frame) : list string := df.*1.

(** [df[c]] for one column name. *)
Fixpoint getitem (df : Frame) (c : string) : result Series :=
  match df with
  | [] => Raise KeyError
  | (n, s) :: df' => if decide (n = c) then Ok s else getitem df' c
  end.

(** [df[cs]] for a list of column names: the named columns, in the order of
    the list. *)
Definition getitems (df : Frame) (cs : list string) : result Frame :=
  for_each (λ c, s ← getitem df c; Ok (c, s)) cs.

(** [df.drop(columns=cs)]: every name must be present. *)
Definition drop (df : Frame) (cs : list string) : result Frame :=
  if decide (Forall (λ c, c ∈ columns df) cs)
  then Ok (filter (λ col, col.1 ∉ cs) df)
  else Raise KeyError.

(** [df[c] = s]: an existing column is overwritten in place, a new one is
    appended. *)
Fixpoint setitem (df : Frame) (c : string) (s : Series) : Frame :=
  match df with
  | [] => [(c, s)]
  | (n, s0) :: df' => if decide (n = c) then (n, s) :: df' else (n, s0) :: setitem df' c s
  end.

(** [s == v], element by element. *)
Definition series_eq (s : Series) (v : Q) : list bool := (λ x, Qeq_bool x v) <$> s.

(** Boolean indexing: the positions at which the mask is [True].  The masks
    of the notebook are computed from a column of the frame they index, so
    mask and column have one length. *)
Fixpoint boolean_index {A} (mask : list bool) (s : list A) : list A :=
  match mask, s with
  | b :: mask', x :: s' =>
      if b then x :: boolean_index mask' s' else boolean_index mask' s'
  | _, _ => []
  end.

(** [df[mask]] keeps the masked rows of every column. *)
Definition mask_rows (mask : list bool) (df : Frame) : Frame :=
  (λ col, (col.1, boolean_index mask col.2)) <$> df.

(** ** Importance tables: the two-column frames 'Feature', 'Importance' *)

Definition Row := (string * Q)%type.
Definition Table := list Row.

Definition Feature (r : Row) : string := r.1.
Definition Importance (r : Row) : Q := r.2.

(** [pd.DataFrame({'Feature': cols, 'Importance': importance})]: the two
    arrays must have the same length. *)
Definition DataFrame_Feature_Importance (cols : list string) (importance : list Q)
  : result Table :=
  if decide (length cols = length importance)
  then Ok (zip cols importance)
  else Raise ValueError.

(** The order of [sort_values(by='Importance', ascending=False)]. *)
Definition descending (a b : Row) : Prop := (Importance b <= Importance a)%Q.

#[export] Instance descending_dec a b : Decision (descending a b) := Qle_dec _ _.

(** Rows of equal importance come out in the order the merge leaves them
    in, which need not be pandas's; no statement below depends on it. *)
Definition sort_values (t : Table) : Table := merge_sort descending t.

(** [t[t['Importance'] > 0]] *)
Definition positive (t : Table) : Table := filter (λ r, (0 < Importance r)%Q) t.

(** [set(t['Feature'])] *)
Definition feature_set (t : Table) : gset string := list_to_set (Feature <$> t).

(** [t[t['Feature'] == f]['Importance'].values[0]] *)
Definition score (t : Table) (f : string) : result Q :=
  match filter (λ r, Feature r = f) t with
  | [] => Raise IndexError
  | r :: _ => Ok (Importance r)
  end.

(** ** Result tables: frames built from a list of dicts *)

Inductive scalar :=
  | Str (s : string)
  | Float (q : Q)
  | NaN.

(** A dict literal, keys in insertion order. *)
Definition record := list (string * scalar).

Record DataFrame := {
  df_columns : list string;
  df_rows : list (list scalar)
}.

(** Column names of [pd.DataFrame(rows)]: the keys of the dicts in the order
    in which they first appear.  No dict, no column. *)
Definition add_keys (acc : list string) (r : record) : list string :=
  foldl (λ acc k, if decide (k ∈ acc) then acc else (acc ++ [k])%list) acc (r.*1).

Definition record_keys (rows : list record) : list string := foldl add_keys [] rows.

Fixpoint record_get (r : record) (k : string) : scalar :=
  match r with
  | [] => NaN
  | (k', v) :: r' => if decide (k' = k) then v else record_get r' k
  end.

Definition DataFrame_of_records (rows : list record) : DataFrame :=
  let cols := record_keys rows in
  {| df_columns := cols; df_rows := (λ r, record_get r <$> cols) <$> rows |}.

(** [df.to_csv(path, index=False)]: the line of column names, then one line
    per row.  A file is the list of its lines, a line the list of its
    fields. *)
Definition csv := list (list scalar).

Definition to_csv (df : DataFrame) : csv := (Str <$> df_columns df) :: df_rows df.

(** ** What the notebook calls and does not define

    [read_csv] is the file system seen through [pd.read_csv].  The three
    fits return the fitted attribute the notebook reads ([coef_],
    [feature_importances_], [ranking_]) from the hyper-parameters, the
    feature frame and the label column it passes.  [ttest_ind] has SciPy's
    third argument [equal_var]: [true] is Student's test, [false] Welch's.
    [set_iter] is the order in which the interpreter iterates over a set of
    strings; it follows the string hashes of the process.

    The scaler, the fits and the t-test stand for calls that return: the
    exceptions these libraries raise on input they refuse (a frame without
    feature columns, labels of a single class) and the exception of
    [to_csv] when the results directory is missing are not part of
    [result].  [run rt = Ok g] therefore describes a notebook that has
    reached its end; the properties below are about such runs and about
    the bookkeeping of single cells. *)

Record Runtime := {
  read_csv : string → result Frame;
  StandardScaler_fit_transform : Frame → list (list Q);
  Lasso_coef : Q → Frame → Series → list Q;
  RandomForestClassifier_feature_importances : nat → Z → Frame → Series → list Q;
  RFE_SVC_ranking : Z → nat → Frame → Series → list Z;
  ttest_ind : Series → Series → bool → scalar * scalar;
  set_iter : gset string → list string
}.

(** Iterating over a set visits each of its elements once. *)
Definition iterates_sets (rt : Runtime) : Prop :=
  ∀ s : gset string, set_iter rt s ≡ₚ elements s.

(** ** The cells *)

Definition input_path : string := "clean_data/merged_cll_t2d_data.csv".
Definition selected_features_path : string :=
  "results/cll_t2d_multimode_selected_features.csv".
Definition t_test_results_path : string :=
  "results/cll_t2d_multimode_t_test_results.csv".

(** The five lines the three selector cells share: build the frame, sort it,
    renumber the index (nothing to do on a list of rows), keep the rows of
    positive importance.  The first component is [feature_importance], the
    second the selector's own table. *)
Definition rank_and_select (cols : list string) (importance : list Q)
  : result (Table * Table) :=
  feature_importance ← DataFrame_Feature_Importance cols importance;
  let feature_importance := sort_values feature_importance in
  Ok (feature_importance, positive feature_importance).

(** [Lasso(alpha=0.01)], [np.abs(lasso.coef_)] *)
Definition lasso_selector (rt : Runtime) (X : Frame) (y : Series) :=
  rank_and_select (columns X) (Qabs <$> Lasso_coef rt (1 # 100) X y).

(** [RandomForestClassifier(n_estimators=100, random_state=42)] *)
Definition rf_selector (rt : Runtime) (X : Frame) (y : Series) :=
  rank_and_select (columns X)
    (RandomForestClassifier_feature_importances rt 100 42 X y).

(** [RFE(estimator=SVC(kernel='linear', random_state=42),
    n_features_to_select=10)], [rfe.ranking_] *)
Definition svmrfe_selector (rt : Runtime) (X : Frame) (y : Series) :=
  rank_and_select (columns X) (inject_Z <$> RFE_SVC_ranking rt 42 10 X y).

(** [lasso_features.intersection(rf_features).intersection(svmrfe_features)] *)
Definition intersect (lasso rf svmrfe : Table) : gset string :=
  (feature_set lasso ∩ feature_set rf) ∩ feature_set svmrfe.

(** The body of the score loop. *)
Definition score_row (lasso rf svmrfe : Table) (feature : string) : result record :=
  lasso_score ← score lasso feature;
  rf_score ← score rf feature;
  svmrfe_score ← score svmrfe feature;
  Ok [("Feature", Str feature);
      ("Lasso", Float lasso_score);
      ("Random Forest", Float rf_score);
      ("SVM-RFE", Float svmrfe_score)].

Definition compile_scores (rt : Runtime) (lasso rf svmrfe : Table)
    (intersection : gset string) : result DataFrame :=
  rows ← for_each (score_row lasso rf svmrfe) (set_iter rt intersection);
  Ok (DataFrame_of_records rows).

(** [frame[frame['label'] == v][feature]] *)
Definition label_group (frame : Frame) (v : Q) (feature : string) : result Series :=
  label ← getitem frame "label";
  getitem (mask_rows (series_eq label v) frame) feature.

(** The body of the t-test loop; [ttest_ind(group1, group2)] leaves
    [equal_var] at its default [True]. *)
Definition t_test_row (rt : Runtime) (common_biomarkers_df : Frame) (feature : string)
  : result record :=
  group1 ← label_group common_biomarkers_df 0 feature;
  group2 ← label_group common_biomarkers_df 1 feature;
  let '(t_stat, p_value) := ttest_ind rt group1 group2 true in
  Ok [("Feature", Str feature); ("t-statistic", t_stat); ("p-value", p_value)].

(** The last cell from [common_biomarkers_df = data[common_biomarkers]] on. *)
Definition t_tests (rt : Runtime) (data : Frame) (y : Series)
    (common_biomarkers : list string) : result DataFrame :=
  common_biomarkers_df ← getitems data common_biomarkers;
  let common_biomarkers_df := setitem common_biomarkers_df "label" y in
  t_test_results ← for_each (t_test_row rt common_biomarkers_df) common_biomarkers;
  Ok (DataFrame_of_records t_test_results).

(** ** The notebook

    The global names as they stand after the last cell, and the files
    written, oldest first.  [feature_importance] is assigned by each of the
    three selector cells; [lasso_importance], [rf_importance] and
    [svmrfe_importance] are its three values.  The cells that only print or
    plot change no global and are left out, and so is the cell whose code
    is commented out. *)

Record Globals := {
  data : Frame;
  X : Frame;
  y : Series;
  X_scaled : list (list Q);
  lasso_importance : Table;
  lasso_feature_importance : Table;
  rf_importance : Table;
  rf_feature_importance : Table;
  svmrfe_importance : Table;
  svmrfe_feature_importance : Table;
  intersection_features : gset string;
  selected_features : DataFrame;
  common_biomarkers : list string;
  t_test_results_df : DataFrame;
  files : list (string * csv)
}.

Definition run (rt : Runtime) : result Globals :=
  data0 ← read_csv rt input_path;
  X0 ← drop data0 ["label"];
  y0 ← getitem data0 "label";
  let X_scaled := StandardScaler_fit_transform rt X0 in
  '(lasso_importance, lasso_feature_importance) ← lasso_selector rt X0 y0;
  '(rf_importance, rf_feature_importance) ← rf_selector rt X0 y0;
  '(svmrfe_importance, svmrfe_feature_importance) ← svmrfe_selector rt X0 y0;
  let intersection_features :=
    intersect lasso_feature_importance rf_feature_importance svmrfe_feature_importance in
  selected_features ←
    compile_scores rt lasso_feature_importance rf_feature_importance
      svmrfe_feature_importance intersection_features;
  let files := [(selected_features_path, to_csv selected_features)] in
  data ← read_csv rt input_path;
  X ← drop data ["label"];
  y ← getitem data "label";
  let common_biomarkers := set_iter rt intersection_features in
  t_test_results_df ← t_tests rt data y common_biomarkers;
  let files := (files ++ [(t_test_results_path, to_csv t_test_results_df)])%list in
  Ok {| data := data; X := X; y := y; X_scaled := X_scaled;
        lasso_importance := lasso_importance;
        lasso_feature_importance := lasso_feature_importance;
        rf_importance := rf_importance;
        rf_feature_importance := rf_feature_importance;
        svmrfe_importance := svmrfe_importance;
        svmrfe_feature_importance := svmrfe_feature_importance;
        intersection_features := intersection_features;
        selected_features := selected_features;
        common_biomarkers := common_biomarkers;
        t_test_results_df := t_test_results_df;
        files := files |}.

#[export] Instance result_fmap : FMap result := λ A B f m,
  match m with
  | Ok a => Ok (f a)
  | Raise e => Raise e
  end.

(** ** Notions the properties are stated with *)

(** The same runtime with another standardizer. *)
Definition with_scaler (rt : Runtime) (scale : Frame → list (list Q)) : Runtime :=
  {| read_csv := read_csv rt;
     StandardScaler_fit_transform := scale;
     Lasso_coef := Lasso_coef rt;
     RandomForestClassifier_feature_importances :=
       RandomForestClassifier_feature_importances rt;
     RFE_SVC_ranking := RFE_SVC_ranking rt;
     ttest_ind := ttest_ind rt;
     set_iter := set_iter rt |}.

(** The same runtime in a process with another iteration order for sets. *)
Definition with_set_iter (rt : Runtime) (iter : gset string → list string) : Runtime :=
  {| read_csv := read_csv rt;
     StandardScaler_fit_transform := StandardScaler_fit_transform rt;
     Lasso_coef := Lasso_coef rt;
     RandomForestClassifier_feature_importances :=
       RandomForestClassifier_feature_importances rt;
     RFE_SVC_ranking := RFE_SVC_ranking rt;
     ttest_ind := ttest_ind rt;
     set_iter := iter |}.

Definition set_X_scaled (g : Globals) (m : list (list Q)) : Globals :=
  {| data := data g; X := X g; y := y g; X_scaled := m;
     lasso_importance := lasso_importance g;
     lasso_feature_importance := lasso_feature_importance g;
     rf_importance := rf_importance g;
     rf_feature_importance := rf_feature_importance g;
     svmrfe_importance := svmrfe_importance g;
     svmrfe_feature_importance := svmrfe_feature_importance g;
     intersection_features := intersection_features g;
     selected_features := selected_features g;
     common_biomarkers := common_biomarkers g;
     t_test_results_df := t_test_results_df g;
     files := files g |}.

(** What the t-test cell is to compute, in the specification's words: the
    values of a feature in the samples whose label is [v], read off the
    frame sample by sample.  [label_group] is the notebook's way to it. *)
Definition values_with_label (d : Frame) (v : Q) (feature : string) : result Series :=
  col ← getitem d feature;
  label ← getitem d "label";
  Ok ((filter (λ p, (p.2 == v)%Q) (zip col label)).*1).

(** The mask of the samples labelled 0 or 1. *)
Definition binary_label (label : Series) : list bool :=
  (λ v, Qeq_bool v 0 || Qeq_bool v 1) <$> label.

(** The line of column names and the rows of a rendered table. *)
Definition scores_header : list scalar :=
  [Str "Feature"; Str "Lasso"; Str "Random Forest"; Str "SVM-RFE"].
Definition t_test_header : list scalar :=
  [Str "Feature"; Str "t-statistic"; Str "p-value"].

(** ** A small runtime to run the notebook on

    One frame on disk under the input path.  The stand-ins for the fits
    answer with one number per column: the first value of the column for
    Lasso, the second for the forest, and ranks that give 1 to the first
    ten columns and count upwards after them.  The stand-in t-test reports
    the difference of the group sums under [equal_var] and NaN otherwise. *)

Definition Qsum (s : Series) : Q := foldr Qplus 0%Q s.

Definition toy (disk : Frame) (iter : gset string → list string) : Runtime :=
  {| read_csv := λ path, if decide (path = input_path) then Ok disk else Raise FileNotFoundError;
     StandardScaler_fit_transform := λ X0, X0.*2;
     Lasso_coef := λ _ X0 _, (λ col, default 0%Q (col.2 !! 0%nat)) <$> X0;
     RandomForestClassifier_feature_importances :=
       λ _ _ X0 _, (λ col, default 0%Q (col.2 !! 1%nat)) <$> X0;
     RFE_SVC_ranking := λ _ keep X0 _, imap (λ i _, Z.of_nat (S (i - (keep - 1)))) X0;
     ttest_ind := λ a b equal_var,
       if equal_var then (Float (Qsum a - Qsum b)%Q, Float (1 # 2)) else (NaN, NaN);
     set_iter := iter |}.

(** Three genes, three samples, labels 0, 1 and 2.  Both stand-in fits give
    GENE_A and GENE_C a positive score; GENE_B gets 0 from the first. *)
Definition three_genes : Frame :=
  [("GENE_A", [1; 4; 2]%Q); ("GENE_B", [0; 3; 1]%Q); ("GENE_C", [2; 2; 5]%Q);
   ("label", [0; 1; 2]%Q)].

(** Two genes on which the stand-in fits agree on nothing. *)
Definition disjoint_genes : Frame :=
  [("GENE_A", [1; 0; 2]%Q); ("GENE_B", [0; 3; 1]%Q); ("label", [0; 1; 0]%Q)].

(** A file without the label column. *)
Definition unlabelled_genes : Frame :=
  [("GENE_A", [1; 0; 2]%Q); ("GENE_B", [0; 3; 1]%Q)].

(** Eleven genes: one more than the ten the elimination is asked to keep. *)
Definition eleven_genes : Frame :=
  [("G01", [1; 1]%Q); ("G02", [1; 1]%Q); ("G03", [1; 1]%Q); ("G04", [1; 1]%Q);
   ("G05", [1; 1]%Q); ("G06", [1; 1]%Q); ("G07", [1; 1]%Q); ("G08", [1; 1]%Q);
   ("G09", [1; 1]%Q); ("G10", [1; 1]%Q); ("G11", [1; 1]%Q); ("label", [0; 1]%Q)].

(** What a run that reaches the end of the notebook has done, cell by
    cell. *)
Record Completed (rt : Runtime) (g : Globals) : Prop := {
  done_read : read_csv rt input_path = Ok (data g);
  done_X : drop (data g) ["label"] = Ok (X g);
  done_y : getitem (data g) "label" = Ok (y g);
  done_scale : X_scaled g = StandardScaler_fit_transform rt (X g);
  done_lasso :
    lasso_selector rt (X g) (y g) = Ok (lasso_importance g, lasso_feature_importance g);
  done_rf : rf_selector rt (X g) (y g) = Ok (rf_importance g, rf_feature_importance g);
  done_svmrfe :
    svmrfe_selector rt (X g) (y g)
    = Ok (svmrfe_importance g, svmrfe_feature_importance g);
  done_intersection :
    intersection_features g
    = intersect (lasso_feature_importance g) (rf_feature_importance g)
        (svmrfe_feature_importance g);
  done_scores :
    compile_scores rt (lasso_feature_importance g) (rf_feature_importance g)
      (svmrfe_feature_importance g) (intersection_features g)
    = Ok (selected_features g);
  done_common : common_biomarkers g = set_iter rt (intersection_features g);
  done_t_tests :
    t_tests rt (data g) (y g) (common_biomarkers g) = Ok (t_test_results_df g);
  done_files :
    files g = [(selected_features_path, to_csv (selected_features g));
               (t_test_results_path, to_csv (t_test_results_df g))]
}.

(** * Properties *)

(** ** The exception monad *)

Lemma bind_Ok {A B} (m : result A) (f : A → result B) (b : B) :
  m ≫= f = Ok b ↔ ∃ a, m = Ok a ∧ f a = Ok b.
Proof.
  destruct m as [a|e]; simpl.
  - split; [eauto | intros (a' & [= <-] & Hf); exact Hf].
  - split; [discriminate | intros (a' & [=] & _)].
Qed.

(** Splits a hypothesis [m ≫= f = Ok b] into its steps. *)
Ltac ok_steps :=
  repeat match goal with
  | H : _ ≫= _ = Ok _ |- _ => apply bind_Ok in H as (? & ? & ?)
  | H : Ok ?a = Ok ?b |- _ => assert (a = b) by congruence; clear H; try subst
  | H : (let '(_, _) := ?p in _) = Ok _ |- _ => destruct p
  end.

Lemma for_each_Ok {A B} (f : A → result B) (l : list A) (bs : list B) :
  for_each f l = Ok bs ↔ Forall2 (λ a b, f a = Ok b) l bs.
Proof.
  revert bs; induction l as [|a l IH]; intros bs; simpl.
  - split.
    + intros [= <-]. constructor.
    + intros Hall. inversion Hall. reflexivity.
  - rewrite bind_Ok. split.
    + intros (b & Hb & Hrest). apply bind_Ok in Hrest as (bs' & Hbs' & [= <-]).
      constructor; [exact Hb | by apply IH].
    + intros Hall. inversion Hall as [|a' b l' bs' Hb Hrest]; subst.
      exists b. split; [exact Hb|]. apply bind_Ok. exists bs'.
      split; [by apply IH | reflexivity].
Qed.

Lemma for_each_total {A B} (f : A → result B) (l : list A) :
  (∀ a, a ∈ l → ∃ b, f a = Ok b) → ∃ bs, for_each f l = Ok bs.
Proof.
  induction l as [|a l IH]; intros Hok; simpl.
  - by eexists.
  - destruct (Hok a) as [b Hb]; [by left|].
    destruct IH as [bs Hbs]; [intros a' Ha'; apply Hok; by right|].
    exists (b :: bs). by rewrite Hb, Hbs.
Qed.

(** ** Frames built from dicts that all have the same keys *)

Lemma add_keys_fresh (acc ks : list string) :
  NoDup ks → (∀ k, k ∈ ks → k ∉ acc) →
  foldl (λ acc k, if decide (k ∈ acc) then acc else (acc ++ [k])%list) acc ks
  = (acc ++ ks)%list.
Proof.
  revert acc; induction ks as [|k ks IH]; intros acc Hnd Hfresh; simpl.
  - by rewrite app_nil_r.
  - apply NoDup_cons in Hnd as [Hk Hnd].
    destruct (decide (k ∈ acc)) as [Hin|_].
    + exfalso. by apply (Hfresh k); [left|].
    + rewrite IH; [by rewrite <- app_assoc | exact Hnd |].
      intros k' Hk' [Hacc | ->%list_elem_of_singleton]%elem_of_app.
      * by apply (Hfresh k'); [right|].
      * done.
Qed.

Lemma add_keys_known (acc ks : list string) :
  (∀ k, k ∈ ks → k ∈ acc) →
  foldl (λ acc k, if decide (k ∈ acc) then acc else (acc ++ [k])%list) acc ks = acc.
Proof.
  induction ks as [|k ks IH]; intros Hin; simpl; [done|].
  destruct (decide (k ∈ acc)) as [_|Hk].
  - apply IH. intros k' Hk'. apply Hin. by right.
  - exfalso. apply Hk, Hin. by left.
Qed.

Lemma record_keys_uniform (ks : list string) (r : record) (rows : list record) :
  NoDup ks → Forall (λ r, r.*1 = ks) (r :: rows) → record_keys (r :: rows) = ks.
Proof.
  intros Hnd Hall. apply Forall_cons in Hall as [Hr Hrows].
  unfold record_keys; simpl. unfold add_keys at 2. rewrite Hr.
  rewrite add_keys_fresh; [simpl | exact Hnd | intros k _; apply not_elem_of_nil].
  induction Hrows as [|r' rows' Hr' _ IH]; simpl; [done|].
  unfold add_keys at 2. rewrite Hr', add_keys_known; [exact IH | done].
Qed.

Lemma record_get_values (r : record) :
  NoDup (r.*1) → record_get r <$> r.*1 = r.*2.
Proof.
  induction r as [|[k v] r IH]; intros Hnd; [done|].
  rewrite !fmap_cons in *. cbn [fst snd record_get] in *.
  apply NoDup_cons in Hnd as [Hk Hnd].
  rewrite decide_True by done. f_equal.
  rewrite <- IH by exact Hnd.
  apply Forall_fmap_ext, Forall_forall. intros k' Hk'. cbn [record_get].
  rewrite decide_False; [done|]. intros ->. by apply Hk.
Qed.

Lemma DataFrame_of_records_uniform (ks : list string) (rows : list record) :
  NoDup ks → Forall (λ r, r.*1 = ks) rows → rows ≠ [] →
  DataFrame_of_records rows = {| df_columns := ks; df_rows := (λ r, r.*2) <$> rows |}.
Proof.
  intros Hnd Hall Hne. destruct rows as [|r rows]; [done|].
  unfold DataFrame_of_records.
  rewrite (record_keys_uniform ks r rows Hnd Hall). f_equal.
  apply Forall_fmap_ext. eapply Forall_impl; [exact Hall|].
  intros r' Hr'; simpl. rewrite <- Hr'. apply record_get_values. by rewrite Hr'.
Qed.

Lemma DataFrame_of_records_rows (ks : list string) (rows : list record) :
  NoDup ks → Forall (λ r, r.*1 = ks) rows →
  df_rows (DataFrame_of_records rows) = (λ r, r.*2) <$> rows.
Proof.
  intros Hnd Hall. destruct rows as [|r rows]; [done|].
  by rewrite (DataFrame_of_records_uniform ks).
Qed.

(** ** Importance tables *)

#[export] Instance descending_total : Total descending.
Proof.
  intros a b. unfold descending.
  destruct (Qlt_le_dec (Importance a) (Importance b)) as [Hlt|Hle].
  - right. by apply Qlt_le_weak.
  - by left.
Qed.

#[export] Instance descending_trans : Transitive descending.
Proof. intros a b c Hab Hbc. unfold descending in *. by eapply Qle_trans. Qed.

Lemma sort_values_perm (t : Table) : sort_values t ≡ₚ t.
Proof. apply merge_sort_Permutation. Qed.

Lemma sort_values_sorted (t : Table) : StronglySorted descending (sort_values t).
Proof. apply StronglySorted_merge_sort; apply _. Qed.

Lemma rank_and_select_Ok (cols : list string) (importance : list Q) (full kept : Table) :
  rank_and_select cols importance = Ok (full, kept) ↔
  length cols = length importance ∧
  full = sort_values (zip cols importance) ∧ kept = positive full.
Proof.
  unfold rank_and_select, DataFrame_Feature_Importance.
  destruct (decide (length cols = length importance)) as [Hlen|Hlen]; simpl.
  - split.
    + intros [= <- <-]. done.
    + intros (_ & -> & ->). done.
  - split; [discriminate | intros (? & _); done].
Qed.

Lemma rank_and_select_features (cols : list string) (importance : list Q)
    (full kept : Table) :
  rank_and_select cols importance = Ok (full, kept) → Feature <$> full ≡ₚ cols.
Proof.
  intros (Hlen & -> & _)%rank_and_select_Ok.
  rewrite sort_values_perm. unfold Feature.
  change (λ r : Row, r.1) with (@fst string Q).
  apply reflexive_eq, fst_zip. lia.
Qed.

Lemma positive_subset (t : Table) (r : Row) : r ∈ positive t → r ∈ t.
Proof. unfold positive. by intros [_ ?]%list_elem_of_filter. Qed.

Lemma elem_of_feature_set (t : Table) (f : string) :
  f ∈ feature_set t ↔ ∃ a, (f, a) ∈ t.
Proof.
  unfold feature_set. rewrite elem_of_list_to_set, list_elem_of_fmap. split.
  - intros ([f' a] & -> & Hin). by exists a.
  - intros (a & Hin). by exists (f, a).
Qed.

Lemma feature_set_positive (t : Table) : feature_set (positive t) ⊆ feature_set t.
Proof.
  intros f (a & Ha)%elem_of_feature_set. apply elem_of_feature_set.
  exists a. by apply positive_subset.
Qed.

Lemma feature_set_columns (cols : list string) (importance : list Q) (full kept : Table) :
  rank_and_select cols importance = Ok (full, kept) →
  feature_set full = list_to_set cols.
Proof.
  intros Hsel%rank_and_select_features. apply set_eq. intros f.
  unfold feature_set. rewrite !elem_of_list_to_set. by rewrite Hsel.
Qed.

Lemma kept_features_columns (cols : list string) (importance : list Q)
    (full kept : Table) (f : string) :
  rank_and_select cols importance = Ok (full, kept) → f ∈ feature_set kept → f ∈ cols.
Proof.
  intros Hsel Hf. rewrite <- (elem_of_list_to_set (C:=gset string)).
  rewrite <- (feature_set_columns _ _ _ _ Hsel).
  apply rank_and_select_Ok in Hsel as (_ & _ & ->). by apply feature_set_positive.
Qed.

(** The lookup of the score loop finds the first row of the feature. *)
Lemma score_Ok (t : Table) (f : string) (a : Q) : score t f = Ok a → (f, a) ∈ t.
Proof.
  unfold score. destruct (filter _ t) as [|[f' a'] rest] eqn:Hfilter; [discriminate|].
  intros [= <-].
  assert (Hin : (f', a') ∈ filter (λ r, Feature r = f) t) by (rewrite Hfilter; by left).
  apply list_elem_of_filter in Hin as [Hf Hin]. simpl in Hf. by subst.
Qed.

Lemma score_defined (t : Table) (f : string) :
  f ∈ feature_set t → ∃ a, score t f = Ok a.
Proof.
  intros (a & Ha)%elem_of_feature_set. unfold score.
  destruct (filter _ t) as [|r rest] eqn:Hfilter; [|by eexists].
  assert (Hin : (f, a) ∈ filter (λ r, Feature r = f) t)
    by (by apply list_elem_of_filter).
  rewrite Hfilter in Hin. by apply not_elem_of_nil in Hin.
Qed.

(** A table whose feature names are pairwise distinct gives each feature
    one importance. *)
Lemma table_functional (t : Table) (f : string) (a b : Q) :
  NoDup (Feature <$> t) → (f, a) ∈ t → (f, b) ∈ t → a = b.
Proof.
  induction t as [|[f' c] t IH]; intros Hnd Ha Hb.
  - by apply not_elem_of_nil in Ha.
  - rewrite fmap_cons in Hnd. apply NoDup_cons in Hnd as [Hf' Hnd].
    assert (Hout : ∀ x, (f', x) ∈ t → False).
    { intros x Hx. apply Hf', list_elem_of_fmap. by exists (f', x). }
    apply elem_of_cons in Ha as [Ha|Ha]; apply elem_of_cons in Hb as [Hb|Hb].
    + congruence.
    + injection Ha as -> ->. by destruct (Hout b).
    + injection Hb as -> ->. by destruct (Hout a).
    + by apply IH.
Qed.

(** ** Frames *)

Lemma getitem_defined (df : Frame) (c : string) :
  c ∈ columns df → ∃ s, getitem df c = Ok s.
Proof.
  unfold columns. induction df as [|[n s] df IH]; intros Hin; cbn [getitem].
  - by apply not_elem_of_nil in Hin.
  - rewrite fmap_cons in Hin. destruct (decide (n = c)) as [->|Hne]; [by eexists|].
    apply IH. apply elem_of_cons in Hin as [Heq|Hin]; [by destruct Hne|done].
Qed.


Lemma getitem_setitem_eq (df : Frame) (c : string) (s : Series) :
  getitem (setitem df c s) c = Ok s.
Proof.
  induction df as [|[n s0] df IH]; cbn [setitem getitem].
  - by rewrite decide_True.
  - destruct (decide (n = c)) as [->|Hne]; cbn [getitem].
    + by rewrite decide_True.
    + by rewrite decide_False.
Qed.

Lemma getitem_setitem_ne (df : Frame) (c c' : string) (s : Series) :
  c' ≠ c → getitem (setitem df c s) c' = getitem df c'.
Proof.
  intros Hne. induction df as [|[n s0] df IH]; cbn [setitem getitem].
  - by rewrite decide_False.
  - destruct (decide (n = c)) as [->|Hnc]; cbn [getitem].
    + by rewrite !decide_False.
    + by rewrite IH.
Qed.

Lemma getitem_mask_rows (mask : list bool) (df : Frame) (c : string) :
  getitem (mask_rows mask df) c = boolean_index mask <$> getitem df c.
Proof.
  unfold mask_rows. induction df as [|[n s] df IH]; [done|].
  rewrite fmap_cons. cbn [getitem fst snd]. by destruct (decide (n = c)).
Qed.


Lemma setitem_mask_rows (mask : list bool) (df : Frame) (c : string) (s : Series) :
  setitem (mask_rows mask df) c (boolean_index mask s)
  = mask_rows mask (setitem df c s).
Proof.
  unfold mask_rows. induction df as [|[n s0] df IH]; [done|].
  rewrite fmap_cons. cbn [setitem fst snd].
  destruct (decide (n = c)) as [->|Hne]; [done|].
  rewrite fmap_cons. cbn [fst snd]. by rewrite IH.
Qed.

Lemma getitems_Ok (df : Frame) (cs : list string) (fr : Frame) :
  getitems df cs = Ok fr ↔ Forall2 (λ c col, getitem df c = Ok col.2 ∧ col.1 = c) cs fr.
Proof.
  unfold getitems, Frame in *. rewrite for_each_Ok.
  split; intros Hall; (eapply Forall2_impl; [exact Hall|]); intros c [n s]; simpl.
  - intros (s' & Hs' & [= <- <-])%bind_Ok. done.
  - intros [Hs ->]. apply bind_Ok. by exists s.
Qed.

Lemma getitems_defined (df : Frame) (cs : list string) :
  (∀ c, c ∈ cs → c ∈ columns df) → ∃ fr, getitems df cs = Ok fr.
Proof.
  intros Hcs. apply for_each_total. intros c Hc.
  destruct (getitem_defined df c (Hcs c Hc)) as [s Hs].
  exists (c, s). by rewrite Hs.
Qed.

Lemma getitem_getitems (df : Frame) (cs : list string) (fr : Frame) (c : string) :
  getitems df cs = Ok fr → c ∈ cs → getitem fr c = getitem df c.
Proof.
  intros Hfr%getitems_Ok. induction Hfr as [|c0 [n s] cs fr [Hs Hn] _ IH]; intros Hc.
  - by apply not_elem_of_nil in Hc.
  - simpl in Hs, Hn. subst n. cbn [getitem].
    destruct (decide (c0 = c)) as [->|Hne]; [done|].
    apply IH. apply elem_of_cons in Hc as [Heq|Hc]; [by destruct Hne|done].
Qed.

Lemma getitems_mask_rows (mask : list bool) (df : Frame) (cs : list string) :
  getitems (mask_rows mask df) cs = mask_rows mask <$> getitems df cs.
Proof.
  unfold getitems. induction cs as [|c cs IH]; [done|].
  cbn [for_each]. rewrite IH, getitem_mask_rows. clear IH.
  destruct (getitem df c) as [s|e]; [|done]. simpl.
  destruct (for_each _ cs) as [bs|e]; reflexivity.
Qed.

(** The column of a feature in the frame of the last cell: the label column
    just assigned, or the column selected from the data. *)
Lemma getitem_common (d : Frame) (cs : list string) (fr : Frame) (y0 : Series)
    (f : string) :
  getitems d cs = Ok fr → f ∈ cs →
  getitem (setitem fr "label" y0) f
  = if decide (f = "label") then Ok y0 else getitem d f.
Proof.
  intros Hfr Hf. destruct (decide (f = "label")) as [->|Hne].
  - apply getitem_setitem_eq.
  - rewrite getitem_setitem_ne by done. by eapply getitem_getitems.
Qed.

Lemma boolean_index_nil {A} (mask : list bool) : boolean_index mask (@nil A) = [].
Proof. by destruct mask. Qed.

Lemma boolean_index_filter (label col : Series) (v : Q) :
  boolean_index (series_eq label v) col
  = (filter (λ p, (p.2 == v)%Q) (zip col label)).*1.
Proof.
  unfold series_eq. revert col; induction label as [|l label IH]; intros [|c col].
  - done.
  - done.
  - rewrite fmap_cons. by destruct (Qeq_bool l v).
  - rewrite fmap_cons. cbn [boolean_index zip zip_with]. rewrite filter_cons.
    cbn [snd]. destruct (Qeq_bool l v) eqn:Hlv.
    + apply Qeq_bool_iff in Hlv. rewrite decide_True by done.
      rewrite fmap_cons. cbn [fst]. by rewrite IH.
    + apply Qeq_bool_neq in Hlv. rewrite decide_False by done. apply IH.
Qed.

(** Indexing by [label == v] sees only samples labelled 0 or 1 when [v] is
    one of the two. *)
Lemma boolean_index_binary {A} (label : Series) (col : list A) (v : Q) :
  (∀ x, Qeq_bool x v = true → Qeq_bool x 0 || Qeq_bool x 1 = true) →
  boolean_index
    (series_eq (boolean_index (binary_label label) label) v)
    (boolean_index (binary_label label) col)
  = boolean_index (series_eq label v) col.
Proof.
  intros Hv. unfold series_eq, binary_label.
  revert col; induction label as [|l label IH]; intros [|c col].
  - done.
  - done.
  - rewrite boolean_index_nil. by rewrite !boolean_index_nil.
  - rewrite !fmap_cons. cbn [boolean_index].
    destruct (Qeq_bool l 0 || Qeq_bool l 1) eqn:Hkeep.
    + rewrite fmap_cons. cbn [boolean_index]. by rewrite IH.
    + destruct (Qeq_bool l v) eqn:Hlv; [|apply IH].
      apply Hv in Hlv. congruence.
Qed.

(** ** The run *)

Lemma run_Completed (rt : Runtime) (g : Globals) : run rt = Ok g → Completed rt g.
Proof.
  unfold run. intros Hrun. ok_steps.
  repeat match goal with
  | H : ?call = Ok ?a, H' : ?call = Ok ?b |- _ =>
      assert (a = b) by congruence; subst b; clear H'
  end.
  by constructor.
Qed.

Lemma drop_columns (d : Frame) (cs : list string) (X0 : Frame) (c : string) :
  drop d cs = Ok X0 → c ∈ columns X0 → c ∈ columns d ∧ c ∉ cs.
Proof.
  unfold drop. destruct (decide _) as [_|_]; [|discriminate]. intros [= <-].
  unfold columns. intros ([n s] & -> & [Hn Hin]%list_elem_of_filter)%list_elem_of_fmap.
  split; [|done]. apply list_elem_of_fmap. by exists (n, s).
Qed.

Lemma intersect_subset (lasso rf svmrfe : Table) (f : string) :
  f ∈ intersect lasso rf svmrfe ↔
  f ∈ feature_set lasso ∧ f ∈ feature_set rf ∧ f ∈ feature_set svmrfe.
Proof. unfold intersect. rewrite !elem_of_intersection. tauto. Qed.

Lemma score_row_defined (lasso rf svmrfe : Table) (f : string) :
  f ∈ intersect lasso rf svmrfe → ∃ r, score_row lasso rf svmrfe f = Ok r.
Proof.
  intros (Hl & Hr & Hs)%intersect_subset. unfold score_row.
  destruct (score_defined _ _ Hl) as [a ->], (score_defined _ _ Hr) as [b ->],
    (score_defined _ _ Hs) as [c ->]. by eexists.
Qed.

Lemma score_row_Ok (lasso rf svmrfe : Table) (f : string) (r : record) :
  score_row lasso rf svmrfe f = Ok r ↔
  ∃ a b c, score lasso f = Ok a ∧ score rf f = Ok b ∧ score svmrfe f = Ok c ∧
    r = [("Feature", Str f); ("Lasso", Float a);
         ("Random Forest", Float b); ("SVM-RFE", Float c)].
Proof.
  unfold score_row. split.
  - intros H. ok_steps. eauto 10.
  - intros (a & b & c & -> & -> & -> & ->). done.
Qed.

Lemma set_iter_elem (rt : Runtime) (s : gset string) (f : string) :
  iterates_sets rt → f ∈ set_iter rt s ↔ f ∈ s.
Proof. intros Hiter. by rewrite (Hiter s), elem_of_elements. Qed.

Lemma compile_scores_defined (rt : Runtime) (lasso rf svmrfe : Table) :
  iterates_sets rt →
  ∃ df, compile_scores rt lasso rf svmrfe (intersect lasso rf svmrfe) = Ok df.
Proof.
  intros Hiter. unfold compile_scores.
  destruct (for_each_total (score_row lasso rf svmrfe)
              (set_iter rt (intersect lasso rf svmrfe))) as [rows ->].
  - intros f Hf%(set_iter_elem rt _ _ Hiter). by apply score_row_defined.
  - by eexists.
Qed.

(** In the frame of the last cell the two groups of a feature are its raw
    values in the samples of that label. *)
Lemma label_group_values (d : Frame) (cs : list string) (fr : Frame) (y0 : Series)
    (v : Q) (f : string) :
  getitems d cs = Ok fr → f ∈ cs → getitem d "label" = Ok y0 →
  label_group (setitem fr "label" y0) v f = values_with_label d v f.
Proof.
  intros Hfr Hf Hy. unfold label_group, values_with_label.
  rewrite getitem_setitem_eq, Hy. simpl.
  rewrite getitem_mask_rows, (getitem_common d cs fr y0 f Hfr Hf).
  destruct (decide (f = "label")) as [->|_].
  - rewrite Hy. simpl. by rewrite boolean_index_filter.
  - destruct (getitem d f) as [col|e]; [|done]. simpl.
    by rewrite boolean_index_filter.
Qed.

Lemma label_group_defined (d : Frame) (cs : list string) (fr : Frame) (y0 : Series)
    (v : Q) (f : string) :
  getitems d cs = Ok fr → f ∈ cs →
  ∃ s, label_group (setitem fr "label" y0) v f = Ok s.
Proof.
  intros Hfr Hf. unfold label_group. rewrite getitem_setitem_eq. simpl.
  rewrite getitem_mask_rows, (getitem_common d cs fr y0 f Hfr Hf).
  destruct (decide (f = "label")) as [_|_]; [by eexists|].
  apply getitems_Ok in Hfr.
  destruct (proj1 (list_elem_of_lookup cs f) Hf) as [i Hi].
  destruct (Forall2_lookup_l _ _ _ _ _ Hfr Hi) as (col & _ & -> & _). by eexists.
Qed.

Lemma t_tests_defined (rt : Runtime) (d : Frame) (y0 : Series) (cs : list string) :
  (∀ c, c ∈ cs → c ∈ columns d) → ∃ df, t_tests rt d y0 cs = Ok df.
Proof.
  intros Hcs. unfold t_tests.
  destruct (getitems_defined d cs Hcs) as [fr Hfr]. rewrite Hfr. simpl.
  destruct (for_each_total (t_test_row rt (setitem fr "label" y0)) cs) as [rows ->].
  - intros f Hf. unfold t_test_row.
    destruct (label_group_defined d cs fr y0 0 f Hfr Hf) as [g1 ->].
    destruct (label_group_defined d cs fr y0 1 f Hfr Hf) as [g2 ->]. simpl.
    destruct (ttest_ind rt g1 g2 true). by eexists.
  - by eexists.
Qed.

Lemma t_test_row_keys (rt : Runtime) (df : Frame) (f : string) (r : record) :
  t_test_row rt df f = Ok r → r.*1 = ["Feature"; "t-statistic"; "p-value"].
Proof.
  unfold t_test_row. intros H. ok_steps. done.
Qed.

Lemma score_row_keys (lasso rf svmrfe : Table) (f : string) (r : record) :
  score_row lasso rf svmrfe f = Ok r →
  r.*1 = ["Feature"; "Lasso"; "Random Forest"; "SVM-RFE"].
Proof. intros (a & b & c & _ & _ & _ & ->)%score_row_Ok. done. Qed.

Lemma NoDup_score_keys : NoDup ["Feature"; "Lasso"; "Random Forest"; "SVM-RFE"].
Proof. compute_done. Qed.

Lemma NoDup_t_test_keys : NoDup ["Feature"; "t-statistic"; "p-value"].
Proof. compute_done. Qed.

(** ** The SVM-RFE selection *)

Lemma positive_all (t : Table) :
  Forall (λ r, (0 < Importance r)%Q) t → positive t = t.
Proof.
  intros Hall. induction Hall as [|r t Hr _ IH]; [done|].
  unfold positive, Table in *. rewrite filter_cons. destruct (decide _); [|done].
  by rewrite IH.
Qed.

Lemma ranks_positive (cols : list string) (ranking : list Z) :
  Forall (λ r, (1 ≤ r)%Z) ranking →
  Forall (λ r, (0 < Importance r)%Q) (sort_values (zip cols (inject_Z <$> ranking))).
Proof.
  intros Hranks. rewrite sort_values_perm. apply Forall_forall.
  intros [f q] Hin. apply elem_of_zip_r, list_elem_of_fmap in Hin as (r & -> & Hr).
  rewrite Forall_forall in Hranks. specialize (Hranks r Hr).
  unfold Importance, Qlt; simpl. lia.
Qed.

(** C1: when the ranks returned by the elimination are all at least 1, the
    filter [rank > 0] of the SVM-RFE cell removes nothing: the retained
    table is the whole ranked table, rows of rank above 1 included, its
    feature set is the set of all feature columns of the dataset, and the
    three-way intersection is the intersection of the Lasso and the forest
    sets alone. *)
Theorem svmrfe_retains_every_feature (rt : Runtime) (g : Globals) :
  run rt = Ok g →
  Forall (λ r, (1 ≤ r)%Z) (RFE_SVC_ranking rt 42 10 (X g) (y g)) →
  svmrfe_feature_importance g = svmrfe_importance g ∧
  feature_set (svmrfe_feature_importance g) = list_to_set (columns (X g)) ∧
  intersection_features g
  = feature_set (lasso_feature_importance g) ∩ feature_set (rf_feature_importance g).
Proof.
  intros Hrun%run_Completed Hranks.
  destruct Hrun as [_ _ _ _ Hlasso _ Hsvm Hinter _ _ _ _].
  assert (Hall : svmrfe_feature_importance g = svmrfe_importance g).
  { unfold svmrfe_selector in Hsvm.
    apply rank_and_select_Ok in Hsvm as (_ & Hfull & ->).
    rewrite Hfull. by apply positive_all, ranks_positive. }
  assert (Hset : feature_set (svmrfe_feature_importance g)
                 = list_to_set (columns (X g))).
  { rewrite Hall. by eapply feature_set_columns. }
  split_and!; [done..|].
  rewrite Hinter. unfold intersect. rewrite Hset.
  apply set_eq. intros f. rewrite !elem_of_intersection, elem_of_list_to_set.
  split; [tauto|]. intros [Hl Hr]. split; [done|].
  by apply (kept_features_columns _ _ _ _ f Hlasso).
Qed.

Lemma svmrfe_retains_every_feature_witness :
  ∃ g, run (toy three_genes elements) = Ok g ∧
    Forall (λ r, (1 ≤ r)%Z)
      (RFE_SVC_ranking (toy three_genes elements) 42 10 (X g) (y g)) ∧
    svmrfe_feature_importance g = svmrfe_importance g ∧
    feature_set (svmrfe_feature_importance g) = list_to_set (columns (X g)) ∧
    intersection_features g
    = feature_set (lasso_feature_importance g) ∩ feature_set (rf_feature_importance g).
Proof.
  eexists. split; [vm_compute; reflexivity|].
  split; [|apply (svmrfe_retains_every_feature (toy three_genes elements))].
  - compute_done.
  - vm_compute; reflexivity.
  - compute_done.
Defined.

(** With eleven genes the eleventh has rank 2 and is retained with the ten
    of rank 1. *)
Example svmrfe_keeps_rank_2 :
  (λ g, (head (svmrfe_feature_importance g), length (svmrfe_feature_importance g)))
    <$> run (toy eleven_genes elements)
  = Ok (Some ("G11", 2%Q), 11).
Proof. vm_compute. reflexivity. Qed.

(** ** The intersection *)

(** C3: whatever the three tables of retained features are, the set the
    intersection cell computes from them is contained in each of their
    three feature sets, a feature is in it exactly when it has a row in
    all three tables, and listing it (the elements of the set, or the
    order of iteration [list(intersection_features)]) repeats no feature;
    the intersection set of a run is this set of its three retained
    tables, and [common_biomarkers] is its listing. *)
Theorem intersection_is_common_subset (lasso rf svmrfe : Table) :
  intersect lasso rf svmrfe ⊆ feature_set lasso ∧
  intersect lasso rf svmrfe ⊆ feature_set rf ∧
  intersect lasso rf svmrfe ⊆ feature_set svmrfe ∧
  (∀ f, f ∈ intersect lasso rf svmrfe ↔
        f ∈ feature_set lasso ∧ f ∈ feature_set rf ∧ f ∈ feature_set svmrfe) ∧
  (∀ f, f ∈ intersect lasso rf svmrfe ↔
        (∃ a, (f, a) ∈ lasso) ∧ (∃ b, (f, b) ∈ rf) ∧ (∃ c, (f, c) ∈ svmrfe)) ∧
  NoDup (elements (intersect lasso rf svmrfe)) ∧
  (∀ rt, iterates_sets rt → NoDup (set_iter rt (intersect lasso rf svmrfe))) ∧
  (∀ rt g, run rt = Ok g →
     intersection_features g
     = intersect (lasso_feature_importance g) (rf_feature_importance g)
         (svmrfe_feature_importance g) ∧
     common_biomarkers g = set_iter rt (intersection_features g)).
Proof.
  split_and!.
  - intros f Hf%intersect_subset. tauto.
  - intros f Hf%intersect_subset. tauto.
  - intros f Hf%intersect_subset. tauto.
  - intros f. apply intersect_subset.
  - intros f. rewrite intersect_subset, !elem_of_feature_set. done.
  - apply NoDup_elements.
  - intros rt Hiter. rewrite (Hiter _). apply NoDup_elements.
  - intros rt g Hrun%run_Completed.
    by destruct Hrun as [_ _ _ _ _ _ _ Hinter _ Hcommon _ _].
Qed.

Lemma intersection_is_common_subset_witness :
  iterates_sets (toy three_genes elements) ∧
  (∃ g, run (toy three_genes elements) = Ok g) ∧
  intersect [("GENE_C", 2%Q); ("GENE_A", 1%Q)] [("GENE_A", 4%Q)]
    [("GENE_A", 1%Q); ("GENE_B", 1%Q)] ⊆ feature_set [("GENE_C", 2%Q); ("GENE_A", 1%Q)] ∧
  NoDup (set_iter (toy three_genes elements)
           (intersect [("GENE_C", 2%Q); ("GENE_A", 1%Q)] [("GENE_A", 4%Q)]
              [("GENE_A", 1%Q); ("GENE_B", 1%Q)])) ∧
  ∀ g, run (toy three_genes elements) = Ok g →
    intersection_features g
    = intersect (lasso_feature_importance g) (rf_feature_importance g)
        (svmrfe_feature_importance g) ∧
    common_biomarkers g = set_iter (toy three_genes elements) (intersection_features g).
Proof.
  destruct (intersection_is_common_subset
              [("GENE_C", 2%Q); ("GENE_A", 1%Q)] [("GENE_A", 4%Q)]
              [("GENE_A", 1%Q); ("GENE_B", 1%Q)])
    as (Hlasso & _ & _ & _ & _ & _ & Hlist & Hrun).
  split; [intros s; reflexivity|].
  split; [eexists; vm_compute; reflexivity|].
  split; [exact Hlasso|].
  split; [apply Hlist; intros s; reflexivity|].
  apply Hrun.
Defined.

(** The set computed from three small tables. *)
Example intersect_three_tables :
  elements (intersect [("GENE_C", 2%Q); ("GENE_A", 1%Q)] [("GENE_A", 4%Q)]
              [("GENE_A", 1%Q); ("GENE_B", 1%Q)]) = ["GENE_A"].
Proof. vm_compute. reflexivity. Qed.

(** C9: for every feature the score loop visits, the rows selected from
    each of the three tables are not empty, so element 0 exists and each of
    the three lookups returns a score; the loop therefore runs to its end. *)
Theorem score_lookups_in_bounds (rt : Runtime) (lasso rf svmrfe : Table) :
  iterates_sets rt →
  (∀ f, f ∈ set_iter rt (intersect lasso rf svmrfe) →
     Forall (λ t, filter (λ r, Feature r = f) t ≠ [] ∧ ∃ a, score t f = Ok a)
       [lasso; rf; svmrfe]) ∧
  ∃ df, compile_scores rt lasso rf svmrfe (intersect lasso rf svmrfe) = Ok df.
Proof.
  intros Hiter. split; [|by apply compile_scores_defined].
  intros f (Hl & Hr & Hs)%(set_iter_elem rt _ _ Hiter)%intersect_subset.
  assert (Hrow : ∀ t, f ∈ feature_set t →
            filter (λ r, Feature r = f) t ≠ [] ∧ ∃ a, score t f = Ok a).
  { intros t [a Ha]%score_defined. split; [|by exists a].
    unfold score in Ha. by destruct (filter _ t). }
  repeat constructor; by apply Hrow.
Qed.

Lemma score_lookups_in_bounds_witness :
  iterates_sets (toy three_genes elements) ∧
  (∀ f, f ∈ set_iter (toy three_genes elements)
            (intersect [("GENE_C", 2%Q); ("GENE_A", 1%Q)] [("GENE_A", 4%Q)]
               [("GENE_A", 1%Q); ("GENE_B", 1%Q)]) →
     Forall (λ t, filter (λ r, Feature r = f) t ≠ [] ∧ ∃ a, score t f = Ok a)
       [[("GENE_C", 2%Q); ("GENE_A", 1%Q)]; [("GENE_A", 4%Q)];
        [("GENE_A", 1%Q); ("GENE_B", 1%Q)]]) ∧
  ∃ df, compile_scores (toy three_genes elements)
          [("GENE_C", 2%Q); ("GENE_A", 1%Q)] [("GENE_A", 4%Q)]
          [("GENE_A", 1%Q); ("GENE_B", 1%Q)]
          (intersect [("GENE_C", 2%Q); ("GENE_A", 1%Q)] [("GENE_A", 4%Q)]
             [("GENE_A", 1%Q); ("GENE_B", 1%Q)]) = Ok df.
Proof.
  split; [intros s; reflexivity|].
  apply (score_lookups_in_bounds (toy three_genes elements)).
  intros s. reflexivity.
Defined.

(** ** The importance tables *)



(** ** The two result tables *)

Lemma kept_functional (cols : list string) (importance : list Q) (full kept : Table)
    (f : string) (a b : Q) :
  rank_and_select cols importance = Ok (full, kept) → NoDup cols →
  (f, a) ∈ kept → (f, b) ∈ kept → a = b.
Proof.
  intros Hsel Hnd Ha Hb.
  assert (Hperm := rank_and_select_features _ _ _ _ Hsel).
  apply rank_and_select_Ok in Hsel as (_ & _ & ->).
  apply (table_functional full f); [by rewrite Hperm | by apply positive_subset..].
Qed.

Lemma compile_scores_rows (rt : Runtime) (lasso rf svmrfe : Table)
    (s : gset string) (df : DataFrame) :
  compile_scores rt lasso rf svmrfe s = Ok df →
  Forall2 (λ f row, ∃ a b c, row = [Str f; Float a; Float b; Float c] ∧
             score lasso f = Ok a ∧ score rf f = Ok b ∧ score svmrfe f = Ok c)
    (set_iter rt s) (df_rows df).
Proof.
  unfold compile_scores. intros H. ok_steps.
  match goal with H : for_each _ _ = Ok ?rows |- _ =>
    apply for_each_Ok in H; rename H into Hrows; rename rows into recs end.
  rewrite (DataFrame_of_records_rows ["Feature"; "Lasso"; "Random Forest"; "SVM-RFE"]);
    [|exact NoDup_score_keys|].
  - apply Forall2_fmap_r. eapply Forall2_impl; [exact Hrows|].
    intros f r (a & b & c & Ha & Hb & Hc & ->)%score_row_Ok. by exists a, b, c.
  - eapply Forall2_Forall_r; [exact Hrows|]. apply Forall_forall.
    intros f _ r. apply score_row_keys.
Qed.

Lemma t_tests_rows (rt : Runtime) (d : Frame) (y0 : Series) (cs : list string)
    (df : DataFrame) :
  t_tests rt d y0 cs = Ok df → getitem d "label" = Ok y0 →
  Forall2 (λ f row, ∃ group1 group2,
             values_with_label d 0 f = Ok group1 ∧
             values_with_label d 1 f = Ok group2 ∧
             row = [Str f; (ttest_ind rt group1 group2 true).1;
                    (ttest_ind rt group1 group2 true).2])
    cs (df_rows df).
Proof.
  unfold t_tests. intros H Hy. ok_steps.
  match goal with
  | Hfr : getitems _ _ = Ok ?fr, H : for_each _ _ = Ok ?rows |- _ =>
      apply for_each_Ok in H; rename H into Hrows; rename rows into recs;
      rename Hfr into Hframe; rename fr into frame
  end.
  rewrite (DataFrame_of_records_rows ["Feature"; "t-statistic"; "p-value"]);
    [|exact NoDup_t_test_keys|].
  - apply Forall2_fmap_r.
    apply Forall2_same_length_lookup. split; [by eapply Forall2_length|].
    intros i f r Hf Hr.
    assert (Hrow := Forall2_lookup_lr _ _ _ _ _ _ Hrows Hf Hr).
    assert (Hin : f ∈ cs) by (apply list_elem_of_lookup; eauto).
    unfold t_test_row in Hrow.
    rewrite !(label_group_values d cs frame y0 _ f Hframe Hin Hy) in Hrow.
    apply bind_Ok in Hrow as (g1 & Hg1 & Hrow).
    apply bind_Ok in Hrow as (g2 & Hg2 & Hrow).
    exists g1, g2. split_and!; [done..|].
    destruct (ttest_ind rt g1 g2 true) as [t p]. by injection Hrow as <-.
  - eapply Forall2_Forall_r; [exact Hrows|]. apply Forall_forall.
    intros f _ r. apply t_test_row_keys.
Qed.

(** C4: the rows of the score table and of the t-test table correspond one
    to one, in the order of [common_biomarkers], to the features of the
    intersection set, which [common_biomarkers] lists without repetition;
    both tables have as many rows as the set has elements; the three scores
    of a row are the importances its feature has in the three selectors'
    tables, and with distinct column names in the dataset each table has
    only one importance per feature. *)
Theorem result_tables_one_row_per_feature (rt : Runtime) (g : Globals) :
  run rt = Ok g →
  iterates_sets rt →
  common_biomarkers g ≡ₚ elements (intersection_features g) ∧
  length (df_rows (selected_features g)) = size (intersection_features g) ∧
  length (df_rows (t_test_results_df g)) = size (intersection_features g) ∧
  Forall2 (λ f row, ∃ a b c, row = [Str f; Float a; Float b; Float c] ∧
             (f, a) ∈ lasso_feature_importance g ∧
             (f, b) ∈ rf_feature_importance g ∧
             (f, c) ∈ svmrfe_feature_importance g)
    (common_biomarkers g) (df_rows (selected_features g)) ∧
  Forall2 (λ f row, ∃ t p, row = [Str f; t; p])
    (common_biomarkers g) (df_rows (t_test_results_df g)) ∧
  (NoDup (columns (X g)) →
   Forall (λ t : Table, ∀ f a b, (f, a) ∈ t → (f, b) ∈ t → a = b)
     [lasso_feature_importance g; rf_feature_importance g;
      svmrfe_feature_importance g]).
Proof.
  intros Hrun%run_Completed Hiter.
  destruct Hrun as [_ _ Hy _ Hlasso Hrf Hsvm _ Hscores Hcommon Htests _].
  assert (Hperm : common_biomarkers g ≡ₚ elements (intersection_features g))
    by (rewrite Hcommon; apply Hiter).
  apply compile_scores_rows in Hscores. rewrite <- Hcommon in Hscores.
  apply t_tests_rows in Htests; [|exact Hy].
  split_and!.
  - exact Hperm.
  - rewrite <- (Forall2_length _ _ _ Hscores), Hperm. reflexivity.
  - rewrite <- (Forall2_length _ _ _ Htests), Hperm. reflexivity.
  - eapply Forall2_impl; [exact Hscores|].
    intros f row (a & b & c & -> & Ha%score_Ok & Hb%score_Ok & Hc%score_Ok).
    by exists a, b, c.
  - eapply Forall2_impl; [exact Htests|].
    intros f row (g1 & g2 & _ & _ & ->). by eexists _, _.
  - intros Hnd. repeat constructor; intros f a b.
    + by apply (kept_functional _ _ _ _ f a b Hlasso Hnd).
    + by apply (kept_functional _ _ _ _ f a b Hrf Hnd).
    + by apply (kept_functional _ _ _ _ f a b Hsvm Hnd).
Qed.

Lemma result_tables_one_row_per_feature_witness :
  ∃ g, run (toy three_genes elements) = Ok g ∧
    iterates_sets (toy three_genes elements) ∧
    NoDup (columns (X g)) ∧
    common_biomarkers g ≡ₚ elements (intersection_features g) ∧
    length (df_rows (selected_features g)) = size (intersection_features g) ∧
    length (df_rows (t_test_results_df g)) = size (intersection_features g) ∧
    Forall2 (λ f row, ∃ a b c, row = [Str f; Float a; Float b; Float c] ∧
               (f, a) ∈ lasso_feature_importance g ∧
               (f, b) ∈ rf_feature_importance g ∧
               (f, c) ∈ svmrfe_feature_importance g)
      (common_biomarkers g) (df_rows (selected_features g)) ∧
    Forall2 (λ f row, ∃ t p, row = [Str f; t; p])
      (common_biomarkers g) (df_rows (t_test_results_df g)) ∧
    (NoDup (columns (X g)) →
     Forall (λ t : Table, ∀ f a b, (f, a) ∈ t → (f, b) ∈ t → a = b)
       [lasso_feature_importance g; rf_feature_importance g;
        svmrfe_feature_importance g]).
Proof.
  eexists. split; [vm_compute; reflexivity|].
  split; [intros s; reflexivity|].
  split; [compute_done|].
  apply (result_tables_one_row_per_feature (toy three_genes elements)).
  - vm_compute; reflexivity.
  - intros s. reflexivity.
Defined.

(** ** The t-tests *)

(** C5: the features tested are those of the intersection set; for each of
    them the row of the t-test table holds the two results of
    [ttest_ind(group1, group2)] with [equal_var] left at [True] (Student's
    test), where [group1] and [group2] are the values the feature has, in
    the data as read from the input file, in the samples labelled 0 and in
    the samples labelled 1. *)
Theorem t_test_compares_label_groups (rt : Runtime) (g : Globals) :
  run rt = Ok g →
  iterates_sets rt →
  read_csv rt input_path = Ok (data g) ∧
  (∀ f, f ∈ common_biomarkers g ↔ f ∈ intersection_features g) ∧
  Forall2 (λ f row, ∃ group1 group2,
             values_with_label (data g) 0 f = Ok group1 ∧
             values_with_label (data g) 1 f = Ok group2 ∧
             row = [Str f; (ttest_ind rt group1 group2 true).1;
                    (ttest_ind rt group1 group2 true).2])
    (common_biomarkers g) (df_rows (t_test_results_df g)).
Proof.
  intros Hrun%run_Completed Hiter.
  destruct Hrun as [Hread _ Hy _ _ _ _ _ _ Hcommon Htests _].
  split_and!.
  - exact Hread.
  - intros f. rewrite Hcommon. by apply set_iter_elem.
  - by apply (t_tests_rows rt (data g) (y g)).
Qed.

Lemma t_test_compares_label_groups_witness :
  ∃ g, run (toy three_genes elements) = Ok g ∧
    iterates_sets (toy three_genes elements) ∧
    read_csv (toy three_genes elements) input_path = Ok (data g) ∧
    (∀ f, f ∈ common_biomarkers g ↔ f ∈ intersection_features g) ∧
    Forall2 (λ f row, ∃ group1 group2,
               values_with_label (data g) 0 f = Ok group1 ∧
               values_with_label (data g) 1 f = Ok group2 ∧
               row = [Str f;
                      (ttest_ind (toy three_genes elements) group1 group2 true).1;
                      (ttest_ind (toy three_genes elements) group1 group2 true).2])
      (common_biomarkers g) (df_rows (t_test_results_df g)).
Proof.
  eexists. split; [vm_compute; reflexivity|].
  split; [intros s; reflexivity|].
  apply (t_test_compares_label_groups (toy three_genes elements)).
  - vm_compute; reflexivity.
  - intros s. reflexivity.
Defined.

(** The groups of GENE_A in the three-sample frame: the sample labelled 2
    is in neither. *)
Example groups_of_GENE_A :
  values_with_label three_genes 0 "GENE_A" = Ok [1%Q] ∧
  values_with_label three_genes 1 "GENE_A" = Ok [4%Q].
Proof. split; vm_compute; reflexivity. Qed.

Lemma t_test_row_mask_rows (rt : Runtime) (frame : Frame) (label : Series)
    (f : string) :
  getitem frame "label" = Ok label →
  t_test_row rt (mask_rows (binary_label label) frame) f = t_test_row rt frame f.
Proof.
  intros Hlabel.
  assert (Hgroup : ∀ v, (∀ x, Qeq_bool x v = true → Qeq_bool x 0 || Qeq_bool x 1 = true) →
            label_group (mask_rows (binary_label label) frame) v f
            = label_group frame v f).
  { intros v Hv. unfold label_group.
    rewrite getitem_mask_rows, Hlabel. simpl.
    rewrite !getitem_mask_rows. destruct (getitem frame f) as [col|e]; [|done].
    simpl. by rewrite boolean_index_binary. }
  unfold t_test_row. rewrite !Hgroup; [done|..].
  - intros x ->. done.
  - intros x ->. apply orb_true_r.
Qed.

(** C10: the t-test table is the same when every sample whose label is
    neither 0 nor 1 is first removed from the data and from the label
    column, so those samples enter neither group; and whatever values the
    label column holds, the t-tests of features that are columns of the
    data raise nothing. *)
Theorem t_tests_ignore_other_labels (rt : Runtime) (d : Frame) (label : Series)
    (cs : list string) :
  t_tests rt (mask_rows (binary_label label) d)
    (boolean_index (binary_label label) label) cs
  = t_tests rt d label cs ∧
  ((∀ c, c ∈ cs → c ∈ columns d) → ∃ df, t_tests rt d label cs = Ok df).
Proof.
  split; [|apply t_tests_defined].
  unfold t_tests. rewrite getitems_mask_rows.
  destruct (getitems d cs) as [fr|e]; [|done]. simpl.
  rewrite setitem_mask_rows.
  assert (Hrows : for_each
            (t_test_row rt (mask_rows (binary_label label) (setitem fr "label" label))) cs
          = for_each (t_test_row rt (setitem fr "label" label)) cs).
  { clear. induction cs as [|f cs IH]; [done|]. cbn [for_each].
    rewrite IH, t_test_row_mask_rows; [done|]. apply getitem_setitem_eq. }
  by rewrite Hrows.
Qed.

Lemma t_tests_ignore_other_labels_witness :
  (∀ c, c ∈ ["GENE_A"; "GENE_C"] → c ∈ columns three_genes) ∧
  t_tests (toy three_genes elements)
    (mask_rows (binary_label [0; 1; 2]%Q) three_genes)
    (boolean_index (binary_label [0; 1; 2]%Q) [0; 1; 2]%Q) ["GENE_A"; "GENE_C"]
  = t_tests (toy three_genes elements) three_genes [0; 1; 2]%Q ["GENE_A"; "GENE_C"] ∧
  ∃ df, t_tests (toy three_genes elements) three_genes [0; 1; 2]%Q
          ["GENE_A"; "GENE_C"] = Ok df.
Proof.
  assert (Hcols : ∀ c, c ∈ ["GENE_A"; "GENE_C"] → c ∈ columns three_genes).
  { intros c Hc. apply list_elem_of_In in Hc. apply list_elem_of_In.
    simpl in *. intuition. }
  split; [exact Hcols|].
  destruct (t_tests_ignore_other_labels (toy three_genes elements) three_genes
              [0; 1; 2]%Q ["GENE_A"; "GENE_C"]) as [Hsame Hdefined].
  split; [exact Hsame | exact (Hdefined Hcols)].
Defined.

(** The sample labelled 2 is dropped by the mask of the samples labelled 0
    or 1. *)
Example binary_label_drops_2 :
  mask_rows (binary_label [0; 1; 2]%Q) three_genes
  = [("GENE_A", [1; 4]%Q); ("GENE_B", [0; 3]%Q); ("GENE_C", [2; 2]%Q);
     ("label", [0; 1]%Q)].
Proof. reflexivity. Qed.

(** ** An empty intersection *)

Lemma set_iter_empty (rt : Runtime) : iterates_sets rt → set_iter rt ∅ = [].
Proof.
  intros Hiter. apply Permutation_nil_r. by rewrite (Hiter ∅), elements_empty.
Qed.

(** C2, as the specification has it, fails on two genes the selectors agree
    on nothing about: the notebook runs to its end and the intersection is
    empty, but the files do not hold the two lines of column names. *)
Lemma empty_intersection_header_counterexample :
  ∃ g, run (toy disjoint_genes elements) = Ok g ∧
    intersection_features g = ∅ ∧
    files g ≠ [(selected_features_path, [scores_header]);
               (t_test_results_path, [t_test_header])].
Proof.
  eexists. split; [vm_compute; reflexivity|]. split; [vm_compute; reflexivity|].
  vm_compute. discriminate.
Qed.

(** C2, amended: when the intersection is empty, the score loop and the
    t-test loop make no iteration and no lookup, so they raise nothing,
    whatever the tables and the data are; both frames are built from an
    empty list of dicts and have neither rows nor columns; rendered, such a
    frame is a single line without any field; and in a run that has
    reached its end these two single lines are what the two files hold:
    no column names and no data rows. *)
Theorem empty_intersection_writes_empty_tables (rt : Runtime) :
  iterates_sets rt →
  (∀ lasso rf svmrfe d y0,
     intersect lasso rf svmrfe = ∅ →
     compile_scores rt lasso rf svmrfe (intersect lasso rf svmrfe)
     = Ok {| df_columns := []; df_rows := [] |} ∧
     t_tests rt d y0 (set_iter rt (intersect lasso rf svmrfe))
     = Ok {| df_columns := []; df_rows := [] |}) ∧
  to_csv {| df_columns := []; df_rows := [] |} = [[]] ∧
  (∀ g, run rt = Ok g →
     intersection_features g = ∅ →
     selected_features g = {| df_columns := []; df_rows := [] |} ∧
     t_test_results_df g = {| df_columns := []; df_rows := [] |} ∧
     files g = [(selected_features_path, [[]]); (t_test_results_path, [[]])]).
Proof.
  intros Hiter. split_and!.
  - intros lasso rf svmrfe d y0 Hempty. rewrite Hempty.
    unfold compile_scores, t_tests. rewrite (set_iter_empty rt Hiter). done.
  - reflexivity.
  - intros g Hrun%run_Completed Hempty.
    destruct Hrun as [_ _ _ _ _ _ _ _ Hscores Hcommon Htests Hfiles].
    rewrite Hempty in Hscores, Hcommon.
    unfold compile_scores in Hscores.
    rewrite (set_iter_empty rt Hiter) in Hscores, Hcommon.
    rewrite Hcommon in Htests. injection Hscores as Hscores. injection Htests as Htests.
    rewrite Hfiles, <- Hscores, <- Htests. done.
Qed.

Lemma empty_intersection_writes_empty_tables_witness :
  iterates_sets (toy disjoint_genes elements) ∧
  (∃ g, run (toy disjoint_genes elements) = Ok g ∧ intersection_features g = ∅) ∧
  intersect [("GENE_A", 1%Q)] [("GENE_B", 3%Q)] [("GENE_A", 1%Q); ("GENE_B", 1%Q)] = ∅ ∧
  (∀ lasso rf svmrfe d y0,
     intersect lasso rf svmrfe = ∅ →
     compile_scores (toy disjoint_genes elements) lasso rf svmrfe
       (intersect lasso rf svmrfe)
     = Ok {| df_columns := []; df_rows := [] |} ∧
     t_tests (toy disjoint_genes elements) d y0
       (set_iter (toy disjoint_genes elements) (intersect lasso rf svmrfe))
     = Ok {| df_columns := []; df_rows := [] |}) ∧
  to_csv {| df_columns := []; df_rows := [] |} = [[]] ∧
  (∀ g, run (toy disjoint_genes elements) = Ok g →
     intersection_features g = ∅ →
     selected_features g = {| df_columns := []; df_rows := [] |} ∧
     t_test_results_df g = {| df_columns := []; df_rows := [] |} ∧
     files g = [(selected_features_path, [[]]); (t_test_results_path, [[]])]).
Proof.
  split; [intros s; reflexivity|].
  split; [eexists; split; vm_compute; reflexivity|].
  split; [vm_compute; reflexivity|].
  apply (empty_intersection_writes_empty_tables (toy disjoint_genes elements)).
  intros s. reflexivity.
Defined.

(** On the two genes the premise of the implication holds as well. *)
Example disjoint_genes_files :
  (λ g, (elements (intersection_features g), files g))
    <$> run (toy disjoint_genes elements)
  = Ok ([], [(selected_features_path, [[]]); (t_test_results_path, [[]])]).
Proof. vm_compute. reflexivity. Qed.

(** ** The standardizer *)

Lemma run_with_scaler (rt : Runtime) (scale : Frame → list (list Q)) :
  run (with_scaler rt scale) = (λ g, set_X_scaled g (scale (X g))) <$> run rt.
Proof.
  unfold run.
  change (read_csv (with_scaler rt scale)) with (read_csv rt).
  change (StandardScaler_fit_transform (with_scaler rt scale)) with scale.
  change (lasso_selector (with_scaler rt scale)) with (lasso_selector rt).
  change (rf_selector (with_scaler rt scale)) with (rf_selector rt).
  change (svmrfe_selector (with_scaler rt scale)) with (svmrfe_selector rt).
  change (compile_scores (with_scaler rt scale)) with (compile_scores rt).
  change (t_tests (with_scaler rt scale)) with (t_tests rt).
  change (set_iter (with_scaler rt scale)) with (set_iter rt).
  repeat match goal with
  | |- ?m ≫= _ = _ =>
      destruct m as [?|?]; [cbn [mbind result_bind] | reflexivity]
  | |- (let '(_, _) := ?p in _) = _ => destruct p
  end.
  reflexivity.
Qed.

(** C6: the three selectors are given [X], which is the frame read from the
    file without its label column, and [y], which is the label column of
    that frame; [X_scaled] is what the standardizer makes of [X], and the
    standardizer has no other effect: with any other standardizer every
    global but [X_scaled], [y] included, and both files are the same. *)
Theorem selectors_fit_unscaled_features (rt : Runtime) (g : Globals) :
  run rt = Ok g →
  read_csv rt input_path = Ok (data g) ∧
  drop (data g) ["label"] = Ok (X g) ∧
  getitem (data g) "label" = Ok (y g) ∧
  rank_and_select (columns (X g)) (Qabs <$> Lasso_coef rt (1 # 100) (X g) (y g))
  = Ok (lasso_importance g, lasso_feature_importance g) ∧
  rank_and_select (columns (X g))
    (RandomForestClassifier_feature_importances rt 100 42 (X g) (y g))
  = Ok (rf_importance g, rf_feature_importance g) ∧
  rank_and_select (columns (X g)) (inject_Z <$> RFE_SVC_ranking rt 42 10 (X g) (y g))
  = Ok (svmrfe_importance g, svmrfe_feature_importance g) ∧
  X_scaled g = StandardScaler_fit_transform rt (X g) ∧
  ∀ scale, run (with_scaler rt scale) = Ok (set_X_scaled g (scale (X g))).
Proof.
  intros Hrun. assert (Hdone := run_Completed rt g Hrun).
  destruct Hdone as [Hread HX Hy Hscaled Hlasso Hrf Hsvm _ _ _ _ _].
  split_and!; try done.
  intros scale. by rewrite run_with_scaler, Hrun.
Qed.

Lemma selectors_fit_unscaled_features_witness :
  ∃ g, run (toy three_genes elements) = Ok g ∧
    read_csv (toy three_genes elements) input_path = Ok (data g) ∧
    drop (data g) ["label"] = Ok (X g) ∧
    getitem (data g) "label" = Ok (y g) ∧
    rank_and_select (columns (X g))
      (Qabs <$> Lasso_coef (toy three_genes elements) (1 # 100) (X g) (y g))
    = Ok (lasso_importance g, lasso_feature_importance g) ∧
    rank_and_select (columns (X g))
      (RandomForestClassifier_feature_importances (toy three_genes elements)
         100 42 (X g) (y g))
    = Ok (rf_importance g, rf_feature_importance g) ∧
    rank_and_select (columns (X g))
      (inject_Z <$> RFE_SVC_ranking (toy three_genes elements) 42 10 (X g) (y g))
    = Ok (svmrfe_importance g, svmrfe_feature_importance g) ∧
    X_scaled g = StandardScaler_fit_transform (toy three_genes elements) (X g) ∧
    ∀ scale, run (with_scaler (toy three_genes elements) scale)
             = Ok (set_X_scaled g (scale (X g))).
Proof.
  eexists. split; [vm_compute; reflexivity|].
  apply (selectors_fit_unscaled_features (toy three_genes elements)).
  vm_compute; reflexivity.
Defined.

(** ** Running the notebook twice *)

Lemma Forall2_functional_Permutation {A B} (R : A → B → Prop)
    (l1 l2 : list A) (k1 k2 : list B) :
  (∀ a b b', R a b → R a b' → b = b') →
  l1 ≡ₚ l2 → Forall2 R l1 k1 → Forall2 R l2 k2 → k1 ≡ₚ k2.
Proof.
  intros Hfun Hperm. revert k1 k2.
  induction Hperm as [|a l l' _ IH|a a' l|l l' l'' Hll' IH1 _ IH2]; intros k1 k2 H1 H2.
  - apply Forall2_nil_inv_l in H1, H2. by subst.
  - apply Forall2_cons_inv_l in H1 as (b1 & k1' & Hb1 & H1 & ->).
    apply Forall2_cons_inv_l in H2 as (b2 & k2' & Hb2 & H2 & ->).
    rewrite (Hfun a b1 b2 Hb1 Hb2). constructor. by apply IH.
  - apply Forall2_cons_inv_l in H1 as (b1 & k1' & Hb1 & H1 & ->).
    apply Forall2_cons_inv_l in H1 as (c1 & k1'' & Hc1 & H1 & ->).
    apply Forall2_cons_inv_l in H2 as (b2 & k2' & Hb2 & H2 & ->).
    apply Forall2_cons_inv_l in H2 as (c2 & k2'' & Hc2 & H2 & ->).
    rewrite (Hfun _ _ _ Hb1 Hc2), (Hfun _ _ _ Hc1 Hb2).
    assert (k1'' = k2'') as ->; [|constructor].
    clear -Hfun H1 H2. revert k2'' H2.
    induction H1 as [|x y l k Hxy _ IH]; intros k2 H2.
    + by apply Forall2_nil_inv_l in H2.
    + apply Forall2_cons_inv_l in H2 as (y' & k' & Hxy' & H2 & ->).
      by rewrite (Hfun _ _ _ Hxy Hxy'), (IH k' H2).
  - assert (Hmid : ∃ k, Forall2 R l' k).
    { apply Forall_exists_Forall2_l. rewrite <- Hll'.
      apply Forall_exists_Forall2_l. by exists k1. }
    destruct Hmid as [k Hk]. transitivity k; [by apply IH1 | by apply IH2].
Qed.

Lemma DataFrame_of_records_columns (ks : list string) (rows : list record) :
  NoDup ks → Forall (λ r, r.*1 = ks) rows →
  df_columns (DataFrame_of_records rows) = match rows with [] => [] | _ => ks end.
Proof.
  intros Hnd Hall. destruct rows as [|r rows]; [done|].
  by rewrite (DataFrame_of_records_uniform ks).
Qed.

Lemma compile_scores_columns (rt : Runtime) (lasso rf svmrfe : Table)
    (s : gset string) (df : DataFrame) :
  compile_scores rt lasso rf svmrfe s = Ok df →
  df_columns df = match df_rows df with
                  | [] => []
                  | _ => ["Feature"; "Lasso"; "Random Forest"; "SVM-RFE"]
                  end.
Proof.
  unfold compile_scores. intros H. ok_steps.
  match goal with H : for_each _ _ = Ok ?rows |- _ =>
    apply for_each_Ok in H; rename H into Hrows; rename rows into recs end.
  assert (Hkeys : Forall (λ r : record, r.*1 = ["Feature"; "Lasso"; "Random Forest"; "SVM-RFE"])
                    recs).
  { eapply Forall2_Forall_r; [exact Hrows|]. apply Forall_forall.
    intros f _ r. apply score_row_keys. }
  rewrite (DataFrame_of_records_columns _ _ NoDup_score_keys Hkeys).
  rewrite (DataFrame_of_records_rows _ _ NoDup_score_keys Hkeys).
  by destruct recs.
Qed.

Lemma t_tests_columns (rt : Runtime) (d : Frame) (y0 : Series) (cs : list string)
    (df : DataFrame) :
  t_tests rt d y0 cs = Ok df →
  df_columns df = match df_rows df with
                  | [] => []
                  | _ => ["Feature"; "t-statistic"; "p-value"]
                  end.
Proof.
  unfold t_tests. intros H. ok_steps.
  match goal with H : for_each _ _ = Ok ?rows |- _ =>
    apply for_each_Ok in H; rename H into Hrows; rename rows into recs end.
  assert (Hkeys : Forall (λ r : record, r.*1 = ["Feature"; "t-statistic"; "p-value"]) recs).
  { eapply Forall2_Forall_r; [exact Hrows|]. apply Forall_forall.
    intros f _ r. apply t_test_row_keys. }
  rewrite (DataFrame_of_records_columns _ _ NoDup_t_test_keys Hkeys).
  rewrite (DataFrame_of_records_rows _ _ NoDup_t_test_keys Hkeys).
  by destruct recs.
Qed.

Lemma same_rows_same_columns (ks : list string) (df1 df2 : DataFrame) :
  df_columns df1 = match df_rows df1 with [] => [] | _ => ks end →
  df_columns df2 = match df_rows df2 with [] => [] | _ => ks end →
  df_rows df1 ≡ₚ df_rows df2 →
  df_columns df1 = df_columns df2.
Proof.
  intros -> -> Hperm. apply Permutation_length in Hperm.
  by destruct (df_rows df1), (df_rows df2).
Qed.

(** C8, as the specification has it, fails: the same data, the same fits
    and seeds, two processes that iterate over the set of common features
    in opposite orders; the intersection sets are equal and the score
    tables are not. *)
Lemma rerun_tables_counterexample :
  ∃ g1 g2,
    run (with_set_iter (toy three_genes elements) elements) = Ok g1 ∧
    run (with_set_iter (toy three_genes elements) (reverse ∘ elements)) = Ok g2 ∧
    iterates_sets (with_set_iter (toy three_genes elements) elements) ∧
    iterates_sets (with_set_iter (toy three_genes elements) (reverse ∘ elements)) ∧
    intersection_features g1 = intersection_features g2 ∧
    selected_features g1 ≠ selected_features g2 ∧
    t_test_results_df g1 ≠ t_test_results_df g2.
Proof.
  eexists _, _. split; [vm_compute; reflexivity|].
  split; [vm_compute; reflexivity|].
  split; [intros s; reflexivity|].
  split; [intros s; apply reverse_Permutation|].
  split; [vm_compute; reflexivity|].
  split; vm_compute; discriminate.
Qed.

(** C8, amended: two runs on the same data with the same fits and seeds
    compute the same intersection set; their score tables have the same
    columns and the same rows, and so have their t-test tables, but the
    rows come in the order in which each process iterates over the set;
    when the two processes iterate over it in the same order, the tables
    are identical. *)
Theorem rerun_same_rows (rt : Runtime) (iter1 iter2 : gset string → list string)
    (g1 g2 : Globals) :
  iterates_sets (with_set_iter rt iter1) →
  iterates_sets (with_set_iter rt iter2) →
  run (with_set_iter rt iter1) = Ok g1 →
  run (with_set_iter rt iter2) = Ok g2 →
  intersection_features g1 = intersection_features g2 ∧
  df_columns (selected_features g1) = df_columns (selected_features g2) ∧
  df_rows (selected_features g1) ≡ₚ df_rows (selected_features g2) ∧
  df_columns (t_test_results_df g1) = df_columns (t_test_results_df g2) ∧
  df_rows (t_test_results_df g1) ≡ₚ df_rows (t_test_results_df g2) ∧
  (iter1 (intersection_features g1) = iter2 (intersection_features g1) →
   selected_features g1 = selected_features g2 ∧
   t_test_results_df g1 = t_test_results_df g2).
Proof.
  intros Hiter1 Hiter2 Hrun1%run_Completed Hrun2%run_Completed.
  destruct Hrun1 as [Hread1 HX1 Hy1 _ Hlasso1 Hrf1 Hsvm1 Hinter1 Hscores1 Hcommon1
                     Htests1 _].
  destruct Hrun2 as [Hread2 HX2 Hy2 _ Hlasso2 Hrf2 Hsvm2 Hinter2 Hscores2 Hcommon2
                     Htests2 _].
  cbn [with_set_iter read_csv set_iter] in *.
  change (lasso_selector (with_set_iter rt ?i)) with (lasso_selector rt) in *.
  change (rf_selector (with_set_iter rt ?i)) with (rf_selector rt) in *.
  change (svmrfe_selector (with_set_iter rt ?i)) with (svmrfe_selector rt) in *.
  assert (Hdata : data g2 = data g1) by congruence. rewrite Hdata in *.
  assert (HX : X g2 = X g1) by congruence. rewrite HX in *.
  assert (Hy : y g2 = y g1) by congruence. rewrite Hy in *.
  assert (Hl : lasso_feature_importance g2 = lasso_feature_importance g1) by congruence.
  assert (Hr : rf_feature_importance g2 = rf_feature_importance g1) by congruence.
  assert (Hs : svmrfe_feature_importance g2 = svmrfe_feature_importance g1)
    by congruence.
  rewrite Hl, Hr, Hs in *. clear Hl Hr Hs.
  assert (Hinter : intersection_features g2 = intersection_features g1) by congruence.
  rewrite Hinter in *.
  assert (Horder : iter1 (intersection_features g1) ≡ₚ iter2 (intersection_features g1)).
  { rewrite (Hiter1 _). symmetry. apply Hiter2. }
  assert (Hcols1 := compile_scores_columns _ _ _ _ _ _ Hscores1).
  assert (Hcols2 := compile_scores_columns _ _ _ _ _ _ Hscores2).
  assert (Htcols1 := t_tests_columns _ _ _ _ _ Htests1).
  assert (Htcols2 := t_tests_columns _ _ _ _ _ Htests2).
  assert (Hrows : df_rows (selected_features g1) ≡ₚ df_rows (selected_features g2)).
  { eapply Forall2_functional_Permutation;
      [|exact Horder
       |exact (compile_scores_rows _ _ _ _ _ _ Hscores1)
       |exact (compile_scores_rows _ _ _ _ _ _ Hscores2)].
    intros f row row' (a & b & c & -> & Ha & Hb & Hc) (a' & b' & c' & -> & Ha' & Hb' & Hc').
    congruence. }
  assert (Htrows : df_rows (t_test_results_df g1) ≡ₚ df_rows (t_test_results_df g2)).
  { eapply Forall2_functional_Permutation;
      [| |exact (t_tests_rows _ _ _ _ _ Htests1 Hy1)
         |exact (t_tests_rows _ _ _ _ _ Htests2 Hy1)].
    - intros f row row' (a & b & Ha & Hb & ->) (a' & b' & Ha' & Hb' & ->). congruence.
    - by rewrite Hcommon1, Hcommon2. }
  split_and!; try done.
  - by eapply same_rows_same_columns.
  - by eapply same_rows_same_columns.
  - intros Hsame. rewrite Hcommon1, Hcommon2, <- Hsame in *.
    unfold compile_scores in *. cbn [with_set_iter set_iter] in *.
    rewrite <- Hsame in Hscores2.
    change (t_tests (with_set_iter rt ?i)) with (t_tests rt) in *.
    split; congruence.
Qed.

Lemma rerun_same_rows_witness :
  ∃ g1 g2,
    iterates_sets (with_set_iter (toy three_genes elements) elements) ∧
    iterates_sets (with_set_iter (toy three_genes elements) (reverse ∘ elements)) ∧
    run (with_set_iter (toy three_genes elements) elements) = Ok g1 ∧
    run (with_set_iter (toy three_genes elements) (reverse ∘ elements)) = Ok g2 ∧
    intersection_features g1 = intersection_features g2 ∧
    df_columns (selected_features g1) = df_columns (selected_features g2) ∧
    df_rows (selected_features g1) ≡ₚ df_rows (selected_features g2) ∧
    df_columns (t_test_results_df g1) = df_columns (t_test_results_df g2) ∧
    df_rows (t_test_results_df g1) ≡ₚ df_rows (t_test_results_df g2) ∧
    (elements (intersection_features g1) = (reverse ∘ elements) (intersection_features g1) →
     selected_features g1 = selected_features g2 ∧
     t_test_results_df g1 = t_test_results_df g2).
Proof.
  eexists _, _.
  split; [intros s; reflexivity|].
  split; [intros s; apply reverse_Permutation|].
  split; [vm_compute; reflexivity|].
  split; [vm_compute; reflexivity|].
  apply (rerun_same_rows (toy three_genes elements) elements (reverse ∘ elements)).
  - intros s. reflexivity.
  - intros s. apply reverse_Permutation.
  - vm_compute; reflexivity.
  - vm_compute; reflexivity.
Defined.

(** * Further properties of the cells *)

(** ** What the notebook raises *)

Lemma drop_label_missing (d : Frame) :
  "label" ∉ columns d → drop d ["label"] = Raise KeyError.
Proof.
  intros Hmissing. unfold drop.
  destruct (decide (Forall (λ c, c ∈ columns d) ["label"])) as [Hin|_]; [|done].
  apply (proj1 (Forall_singleton _ _)) in Hin. by destruct Hmissing.
Qed.

(** X1: when the file has no column named 'label', the cell that splits
    the data raises KeyError, whatever the standardizer and the fits would
    do. *)
Theorem missing_label_raises_KeyError (rt : Runtime) (d : Frame) :
  read_csv rt input_path = Ok d →
  "label" ∉ columns d →
  run rt = Raise KeyError.
Proof.
  intros Hread Hmissing. unfold run. rewrite Hread. cbn [mbind result_bind].
  by rewrite (drop_label_missing d Hmissing).
Qed.

Lemma missing_label_raises_KeyError_witness :
  read_csv (toy unlabelled_genes elements) input_path = Ok unlabelled_genes ∧
  ("label" ∉ columns unlabelled_genes) ∧
  run (toy unlabelled_genes elements) = Raise KeyError.
Proof.
  split; [reflexivity|]. split; [compute_done|].
  apply (missing_label_raises_KeyError (toy unlabelled_genes elements) unlabelled_genes).
  - reflexivity.
  - compute_done.
Defined.

(** ** What the selectors retain *)

Lemma positive_sorted_prefix (t : Table) :
  StronglySorted descending t → positive t = take (length (positive t)) t.
Proof.
  intros Hsorted. induction Hsorted as [|r t _ IH Hbelow]; [done|].
  unfold positive, Table in *. rewrite filter_cons.
  destruct (decide (0 < Importance r)%Q) as [Hpos|Hneg].
  - cbn [length take]. by rewrite <- IH.
  - assert (Hnone : filter (λ r0 : Row, (0 < Importance r0)%Q) t = []).
    { clear IH. induction Hbelow as [|r' t' Hr' _ IH']; [done|].
      rewrite filter_cons, decide_False; [exact IH'|].
      unfold descending in Hr'. intros Hpos. apply Hneg.
      by eapply Qlt_le_trans. }
    by rewrite Hnone.
Qed.

Lemma kept_positive (cols : list string) (importance : list Q) (full kept : Table) :
  rank_and_select cols importance = Ok (full, kept) →
  Forall (λ r, (0 < Importance r)%Q) kept.
Proof.
  intros (_ & _ & ->)%rank_and_select_Ok. apply Forall_forall.
  intros r Hr. unfold positive in Hr. by apply list_elem_of_filter in Hr as [Hpos _].
Qed.

(** X3: each selector's retained table is the top of its ranking: it is
    the first k rows of the sorted importance table, k being the number of
    features retained, its rows all have a positive importance and every
    row of the ranking below them has none. *)
Theorem retained_is_top_of_ranking (rt : Runtime) (g : Globals) :
  run rt = Ok g →
  Forall (λ tables : Table * Table,
            tables.2 = take (length tables.2) tables.1 ∧
            Forall (λ r, (0 < Importance r)%Q) tables.2 ∧
            Forall (λ r, (Importance r <= 0)%Q) (skipn (length tables.2) tables.1))
    [(lasso_importance g, lasso_feature_importance g);
     (rf_importance g, rf_feature_importance g);
     (svmrfe_importance g, svmrfe_feature_importance g)].
Proof.
  intros Hrun%run_Completed.
  destruct Hrun as [_ _ _ _ Hlasso Hrf Hsvm _ _ _ _ _].
  assert (Htop : ∀ importance full kept,
            rank_and_select (columns (X g)) importance = Ok (full, kept) →
            kept = take (length kept) full ∧
            Forall (λ r, (0 < Importance r)%Q) kept ∧
            Forall (λ r, (Importance r <= 0)%Q) (skipn (length kept) full)).
  { intros importance full kept Hsel.
    assert (Hpos := kept_positive _ _ _ _ Hsel).
    apply rank_and_select_Ok in Hsel as (_ & Hfull & Hkept).
    assert (Hprefix : kept = take (length kept) full).
    { rewrite Hkept, Hfull. apply positive_sorted_prefix, sort_values_sorted. }
    split_and!; [done..|].
    apply Forall_forall. intros r Hr.
    destruct (Qlt_le_dec 0 (Importance r)) as [Hlt|Hle]; [|done].
    exfalso.
    assert (Hin : r ∈ positive full).
    { unfold positive. apply list_elem_of_filter. split; [done|].
      rewrite <- (take_drop (length kept) full). apply elem_of_app. by right. }
    rewrite <- Hkept in Hin.
    assert (Hnd : length full = length kept + length (skipn (length kept) full)).
    { rewrite <- (take_drop (length kept) full) at 1.
      by rewrite length_app, <- Hprefix. }
    (* a positive row below the prefix would make the filter longer *)
    assert (Hlen : length (positive full)
                   = length (positive (take (length kept) full))
                     + length (positive (skipn (length kept) full))).
    { rewrite <- (take_drop (length kept) full) at 1.
      unfold positive, Table. by rewrite filter_app, length_app. }
    rewrite <- Hprefix, <- Hkept in Hlen.
    assert (Hkk : positive kept = kept) by (by apply positive_all).
    rewrite Hkk in Hlen.
    assert (Hzero : length (positive (skipn (length kept) full)) = 0) by lia.
    apply length_zero_iff_nil in Hzero.
    assert (Hr' : r ∈ positive (skipn (length kept) full)).
    { unfold positive. by apply list_elem_of_filter. }
    rewrite Hzero in Hr'. by apply not_elem_of_nil in Hr'. }
  repeat constructor; eapply Htop; eassumption.
Qed.

Lemma retained_is_top_of_ranking_witness :
  ∃ g, run (toy three_genes elements) = Ok g ∧
    Forall (λ tables : Table * Table,
              tables.2 = take (length tables.2) tables.1 ∧
              Forall (λ r, (0 < Importance r)%Q) tables.2 ∧
              Forall (λ r, (Importance r <= 0)%Q)
                (skipn (length tables.2) tables.1))
      [(lasso_importance g, lasso_feature_importance g);
       (rf_importance g, rf_feature_importance g);
       (svmrfe_importance g, svmrfe_feature_importance g)].
Proof.
  eexists. split; [vm_compute; reflexivity|].
  apply (retained_is_top_of_ranking (toy three_genes elements)).
  vm_compute; reflexivity.
Defined.

Lemma elem_of_ranking (cols : list string) (importance : list Q) (full kept : Table)
    (f : string) (a : Q) :
  rank_and_select cols importance = Ok (full, kept) →
  (f, a) ∈ full ↔ ∃ i, cols !! i = Some f ∧ importance !! i = Some a.
Proof.
  intros (_ & -> & _)%rank_and_select_Ok. rewrite sort_values_perm.
  rewrite list_elem_of_lookup. unfold zip. split.
  - intros (i & (f' & a' & [= -> ->] & Hf & Ha)%lookup_zip_with_Some). by exists i.
  - intros (i & Hf & Ha). exists i. apply lookup_zip_with_Some. by exists f, a.
Qed.

Lemma elem_of_kept (cols : list string) (importance : list Q) (full kept : Table)
    (f : string) (a : Q) :
  rank_and_select cols importance = Ok (full, kept) →
  (f, a) ∈ kept ↔ (0 < a)%Q ∧ ∃ i, cols !! i = Some f ∧ importance !! i = Some a.
Proof.
  intros Hsel. rewrite <- (elem_of_ranking _ _ _ _ f a Hsel).
  apply rank_and_select_Ok in Hsel as (_ & _ & ->).
  unfold positive. by rewrite list_elem_of_filter.
Qed.

Lemma Qabs_positive (c : Q) : (0 < Qabs c)%Q ↔ ¬ (c == 0)%Q.
Proof. destruct c as [n d]. unfold Qlt, Qeq. simpl. lia. Qed.

(** X4: the Lasso importances are never negative, and the features the
    Lasso cell retains are exactly the feature columns whose fitted
    coefficient is not zero. *)
Theorem lasso_retains_nonzero_coefficients (rt : Runtime) (g : Globals) :
  run rt = Ok g →
  Forall (λ r, (0 <= Importance r)%Q) (lasso_importance g) ∧
  ∀ f, f ∈ feature_set (lasso_feature_importance g) ↔
       ∃ i c, columns (X g) !! i = Some f ∧
              Lasso_coef rt (1 # 100) (X g) (y g) !! i = Some c ∧
              ¬ (c == 0)%Q.
Proof.
  intros Hrun%run_Completed.
  destruct Hrun as [_ _ _ _ Hlasso _ _ _ _ _ _ _]. unfold lasso_selector in Hlasso.
  split.
  - apply Forall_forall. intros [f a] Hin.
    apply (elem_of_ranking _ _ _ _ f a Hlasso) in Hin as (i & _ & Ha).
    rewrite list_lookup_fmap in Ha.
    destruct (Lasso_coef rt (1 # 100) (X g) (y g) !! i) as [c|]; [|done].
    injection Ha as <-. apply Qabs_nonneg.
  - intros f. rewrite elem_of_feature_set. split.
    + intros (a & (Hpos & i & Hf & Ha)%(elem_of_kept _ _ _ _ f a Hlasso)).
      rewrite list_lookup_fmap in Ha.
      destruct (Lasso_coef rt (1 # 100) (X g) (y g) !! i) as [c|] eqn:Hc; [|done].
      injection Ha as <-. exists i, c. split_and!; [done..|]. by apply Qabs_positive.
    + intros (i & c & Hf & Hc & Hnz). exists (Qabs c).
      apply (elem_of_kept _ _ _ _ f (Qabs c) Hlasso). split; [by apply Qabs_positive|].
      exists i. split; [done|]. by rewrite list_lookup_fmap, Hc.
Qed.

Lemma lasso_retains_nonzero_coefficients_witness :
  ∃ g, run (toy three_genes elements) = Ok g ∧
    Forall (λ r, (0 <= Importance r)%Q) (lasso_importance g) ∧
    ∀ f, f ∈ feature_set (lasso_feature_importance g) ↔
         ∃ i c, columns (X g) !! i = Some f ∧
                Lasso_coef (toy three_genes elements) (1 # 100) (X g) (y g) !! i
                = Some c ∧
                ¬ (c == 0)%Q.
Proof.
  eexists. split; [vm_compute; reflexivity|].
  apply (lasso_retains_nonzero_coefficients (toy three_genes elements)).
  vm_compute; reflexivity.
Defined.

(** X5: a feature retained by any of the three selectors is a column of
    the data other than 'label'; so 'label' is never in the intersection
    set, and every feature of the intersection set has a column in the data
    the last cell reads. *)
Theorem label_is_never_selected (rt : Runtime) (g : Globals) :
  run rt = Ok g →
  (∀ f, f ∈ feature_set (lasso_feature_importance g)
          ∪ feature_set (rf_feature_importance g)
          ∪ feature_set (svmrfe_feature_importance g) →
        f ≠ "label" ∧ f ∈ columns (X g) ∧ ∃ col, getitem (data g) f = Ok col) ∧
  ("label" ∉ intersection_features g) ∧
  (∀ f, f ∈ intersection_features g → ∃ col, getitem (data g) f = Ok col).
Proof.
  intros Hrun%run_Completed.
  destruct Hrun as [_ HX _ _ Hlasso Hrf Hsvm Hinter _ _ _ _].
  assert (Hcol : ∀ f, f ∈ columns (X g) →
            f ≠ "label" ∧ f ∈ columns (X g) ∧ ∃ col, getitem (data g) f = Ok col).
  { intros f Hf. destruct (drop_columns _ _ _ f HX Hf) as [Hdata Hnot].
    split_and!; [|done|by apply getitem_defined].
    intros ->. apply Hnot. by left. }
  assert (Hany : ∀ f, f ∈ feature_set (lasso_feature_importance g)
                        ∪ feature_set (rf_feature_importance g)
                        ∪ feature_set (svmrfe_feature_importance g) →
            f ≠ "label" ∧ f ∈ columns (X g) ∧ ∃ col, getitem (data g) f = Ok col).
  { intros f [[Hf|Hf]%elem_of_union|Hf]%elem_of_union; apply Hcol.
    - by apply (kept_features_columns _ _ _ _ f Hlasso).
    - by apply (kept_features_columns _ _ _ _ f Hrf).
    - by apply (kept_features_columns _ _ _ _ f Hsvm). }
  split_and!; [exact Hany | |].
  - rewrite Hinter. intros (Hl & _ & _)%intersect_subset.
    destruct (Hany "label") as [Hne _]; [|done].
    apply elem_of_union. left. apply elem_of_union. by left.
  - rewrite Hinter. intros f (Hl & _ & _)%intersect_subset.
    apply Hany. apply elem_of_union. left. apply elem_of_union. by left.
Qed.

Lemma label_is_never_selected_witness :
  ∃ g, run (toy three_genes elements) = Ok g ∧
    (∀ f, f ∈ feature_set (lasso_feature_importance g)
            ∪ feature_set (rf_feature_importance g)
            ∪ feature_set (svmrfe_feature_importance g) →
          f ≠ "label" ∧ f ∈ columns (X g) ∧ ∃ col, getitem (data g) f = Ok col) ∧
    ("label" ∉ intersection_features g) ∧
    (∀ f, f ∈ intersection_features g → ∃ col, getitem (data g) f = Ok col).
Proof.
  eexists. split; [vm_compute; reflexivity|].
  apply (label_is_never_selected (toy three_genes elements)).
  vm_compute; reflexivity.
Defined.

(** ** What the score table holds *)

(** X6: every row of the score table is a feature name followed by three
    strictly positive scores. *)
Theorem scores_are_positive (rt : Runtime) (g : Globals) :
  run rt = Ok g →
  Forall (λ row, ∃ f a b c, row = [Str f; Float a; Float b; Float c] ∧
                   (0 < a)%Q ∧ (0 < b)%Q ∧ (0 < c)%Q)
    (df_rows (selected_features g)).
Proof.
  intros Hrun%run_Completed.
  destruct Hrun as [_ _ _ _ Hlasso Hrf Hsvm _ Hscores _ _ _].
  apply compile_scores_rows in Hscores.
  eapply Forall2_Forall_r; [exact Hscores|]. apply Forall_forall.
  intros f _ row (a & b & c & -> & Ha%score_Ok & Hb%score_Ok & Hc%score_Ok).
  exists f, a, b, c. split; [done|].
  apply (elem_of_kept _ _ _ _ f a Hlasso) in Ha as [Ha _].
  apply (elem_of_kept _ _ _ _ f b Hrf) in Hb as [Hb _].
  apply (elem_of_kept _ _ _ _ f c Hsvm) in Hc as [Hc _]. done.
Qed.

Lemma scores_are_positive_witness :
  ∃ g, run (toy three_genes elements) = Ok g ∧
    Forall (λ row, ∃ f a b c, row = [Str f; Float a; Float b; Float c] ∧
                     (0 < a)%Q ∧ (0 < b)%Q ∧ (0 < c)%Q)
      (df_rows (selected_features g)).
Proof.
  eexists. split; [vm_compute; reflexivity|].
  apply (scores_are_positive (toy three_genes elements)).
  vm_compute; reflexivity.
Defined.

(** X7: with distinct column names, the three scores of a row of the
    score table are what the three fits returned for that very column: the
    absolute value of its Lasso coefficient, its forest importance and its
    elimination rank.  Ranking, sorting, filtering and looking the feature
    up again lose nothing and mix nothing up. *)
Theorem scores_are_fitted_values (rt : Runtime) (g : Globals) :
  run rt = Ok g →
  NoDup (columns (X g)) →
  Forall (λ row, ∃ i f coef importance rank,
            columns (X g) !! i = Some f ∧
            Lasso_coef rt (1 # 100) (X g) (y g) !! i = Some coef ∧
            RandomForestClassifier_feature_importances rt 100 42 (X g) (y g) !! i
            = Some importance ∧
            RFE_SVC_ranking rt 42 10 (X g) (y g) !! i = Some rank ∧
            row = [Str f; Float (Qabs coef); Float importance; Float (inject_Z rank)])
    (df_rows (selected_features g)).
Proof.
  intros Hrun%run_Completed Hnd.
  destruct Hrun as [_ _ _ _ Hlasso Hrf Hsvm _ Hscores _ _ _].
  unfold lasso_selector, rf_selector, svmrfe_selector in *.
  apply compile_scores_rows in Hscores.
  eapply Forall2_Forall_r; [exact Hscores|]. apply Forall_forall.
  intros f _ row (a & b & c & -> & Ha%score_Ok & Hb%score_Ok & Hc%score_Ok).
  apply (elem_of_kept _ _ _ _ f a Hlasso) in Ha as (_ & i & Hf & Ha).
  apply (elem_of_kept _ _ _ _ f b Hrf) in Hb as (_ & j & Hfj & Hb).
  apply (elem_of_kept _ _ _ _ f c Hsvm) in Hc as (_ & k & Hfk & Hc).
  assert (j = i) as -> by (by eapply NoDup_lookup).
  assert (k = i) as -> by (by eapply NoDup_lookup).
  rewrite list_lookup_fmap in Ha. rewrite list_lookup_fmap in Hc.
  destruct (Lasso_coef rt (1 # 100) (X g) (y g) !! i) as [coef|] eqn:Hcoef; [|done].
  destruct (RFE_SVC_ranking rt 42 10 (X g) (y g) !! i) as [rank|] eqn:Hrank; [|done].
  injection Ha as <-. injection Hc as <-.
  by exists i, f, coef, b, rank.
Qed.

Lemma scores_are_fitted_values_witness :
  ∃ g, run (toy three_genes elements) = Ok g ∧
    NoDup (columns (X g)) ∧
    Forall (λ row, ∃ i f coef importance rank,
              columns (X g) !! i = Some f ∧
              Lasso_coef (toy three_genes elements) (1 # 100) (X g) (y g) !! i
              = Some coef ∧
              RandomForestClassifier_feature_importances (toy three_genes elements)
                100 42 (X g) (y g) !! i = Some importance ∧
              RFE_SVC_ranking (toy three_genes elements) 42 10 (X g) (y g) !! i
              = Some rank ∧
              row = [Str f; Float (Qabs coef); Float importance;
                     Float (inject_Z rank)])
      (df_rows (selected_features g)).
Proof.
  eexists. split; [vm_compute; reflexivity|]. split; [compute_done|].
  apply (scores_are_fitted_values (toy three_genes elements)).
  - vm_compute; reflexivity.
  - compute_done.
Defined.

(** ** The files of a non-empty intersection *)

(** X8: when the intersection set is not empty, the first file holds the
    line 'Feature, Lasso, Random Forest, SVM-RFE' and the second the line
    'Feature, t-statistic, p-value', each followed by the rows of its
    table, one per feature of the intersection set; nothing else is
    written. *)
Theorem nonempty_intersection_files (rt : Runtime) (g : Globals) :
  run rt = Ok g →
  iterates_sets rt →
  intersection_features g ≠ ∅ →
  files g = [(selected_features_path, scores_header :: df_rows (selected_features g));
             (t_test_results_path, t_test_header :: df_rows (t_test_results_df g))] ∧
  length (df_rows (selected_features g)) = size (intersection_features g) ∧
  length (df_rows (t_test_results_df g)) = size (intersection_features g).
Proof.
  intros Hrun%run_Completed Hiter Hne.
  destruct Hrun as [_ _ Hy _ _ _ _ _ Hscores Hcommon Htests Hfiles].
  assert (Hlen : length (common_biomarkers g) = size (intersection_features g)).
  { rewrite Hcommon. by rewrite (Hiter _). }
  assert (Hsize : size (intersection_features g) ≠ 0).
  { intros Hzero%size_empty_iff. apply Hne. by apply leibniz_equiv. }
  assert (Hcols1 := compile_scores_columns _ _ _ _ _ _ Hscores).
  assert (Hcols2 := t_tests_columns _ _ _ _ _ Htests).
  apply compile_scores_rows, Forall2_length in Hscores.
  apply t_tests_rows, Forall2_length in Htests; [|exact Hy].
  rewrite <- Hcommon in Hscores.
  split_and!; [|lia..].
  rewrite Hfiles. unfold to_csv. rewrite Hcols1, Hcols2.
  destruct (df_rows (selected_features g)) as [|row1 rows1]; [simpl in *; lia|].
  destruct (df_rows (t_test_results_df g)) as [|row2 rows2]; [simpl in *; lia|].
  reflexivity.
Qed.

Lemma nonempty_intersection_files_witness :
  ∃ g, run (toy three_genes elements) = Ok g ∧
    iterates_sets (toy three_genes elements) ∧
    intersection_features g ≠ ∅ ∧
    files g = [(selected_features_path,
                scores_header :: df_rows (selected_features g));
               (t_test_results_path,
                t_test_header :: df_rows (t_test_results_df g))] ∧
    length (df_rows (selected_features g)) = size (intersection_features g) ∧
    length (df_rows (t_test_results_df g)) = size (intersection_features g).
Proof.
  eexists. split; [vm_compute; reflexivity|].
  split; [intros s; reflexivity|].
  split; [|apply (nonempty_intersection_files (toy three_genes elements))].
  - intros Hempty. apply (f_equal size) in Hempty. vm_compute in Hempty. discriminate.
  - vm_compute; reflexivity.
  - intros s. reflexivity.
  - intros Hempty. apply (f_equal size) in Hempty. vm_compute in Hempty. discriminate.
Defined.

(** ** The two groups of a t-test *)

Lemma label_group_Ok (frame : Frame) (v : Q) (f : string) (label col : Series) :
  getitem frame "label" = Ok label → getitem frame f = Ok col →
  label_group frame v f = Ok (boolean_index (series_eq label v) col).
Proof.
  intros Hlabel Hcol. unfold label_group. rewrite Hlabel. cbn [mbind result_bind].
  by rewrite getitem_mask_rows, Hcol.
Qed.

Lemma binary_groups_partition {A} (label : Series) (col : list A) :
  length col = length label →
  Forall (λ v, (v == 0)%Q ∨ (v == 1)%Q) label →
  boolean_index (series_eq label 0) col ++ boolean_index (series_eq label 1) col
  ≡ₚ col.
Proof.
  intros Hlen Hbinary. revert col Hlen.
  induction Hbinary as [|l label Hl _ IH]; intros [|c col] Hlen; try done.
  unfold series_eq in *. rewrite !fmap_cons. cbn [boolean_index].
  injection Hlen as Hlen. specialize (IH col Hlen).
  destruct Hl as [Hl|Hl].
  - rewrite (Qeq_eq_bool _ _ Hl).
    destruct (Qeq_bool l 1) eqn:Hone.
    + apply Qeq_bool_eq in Hone. rewrite Hl in Hone. discriminate.
    + cbn [app]. by constructor.
  - rewrite (Qeq_eq_bool _ _ Hl).
    destruct (Qeq_bool l 0) eqn:Hzero.
    + apply Qeq_bool_eq in Hzero. rewrite Hl in Hzero. discriminate.
    + rewrite <- Permutation_middle. by constructor.
Qed.

(** X9: when every label is 0 or 1 and the frame's columns are as long as
    its label column, the two groups of a feature split its column: every
    sample's value is in exactly one of the two groups, and the group sizes
    add up to the number of samples. *)
Theorem binary_label_groups_partition (frame : Frame) (f : string)
    (label col : Series) :
  getitem frame "label" = Ok label →
  getitem frame f = Ok col →
  length col = length label →
  Forall (λ v, (v == 0)%Q ∨ (v == 1)%Q) label →
  ∃ group1 group2,
    label_group frame 0 f = Ok group1 ∧
    label_group frame 1 f = Ok group2 ∧
    group1 ++ group2 ≡ₚ col ∧
    length group1 + length group2 = length label.
Proof.
  intros Hlabel Hcol Hlen Hbinary.
  exists (boolean_index (series_eq label 0) col),
         (boolean_index (series_eq label 1) col).
  assert (Hperm := binary_groups_partition label col Hlen Hbinary).
  split_and!; [by apply label_group_Ok..|done|].
  by rewrite <- length_app, Hperm.
Qed.

Lemma binary_label_groups_partition_witness :
  getitem disjoint_genes "label" = Ok [0; 1; 0]%Q ∧
  getitem disjoint_genes "GENE_B" = Ok [0; 3; 1]%Q ∧
  length [0; 3; 1]%Q = length [0; 1; 0]%Q ∧
  Forall (λ v, (v == 0)%Q ∨ (v == 1)%Q) [0; 1; 0]%Q ∧
  ∃ group1 group2,
    label_group disjoint_genes 0 "GENE_B" = Ok group1 ∧
    label_group disjoint_genes 1 "GENE_B" = Ok group2 ∧
    group1 ++ group2 ≡ₚ [0; 3; 1]%Q ∧
    length group1 + length group2 = length [0; 1; 0]%Q.
Proof.
  assert (Hbinary : Forall (λ v, (v == 0)%Q ∨ (v == 1)%Q) [0; 1; 0]%Q).
  { constructor; [left; reflexivity|]. constructor; [right; reflexivity|].
    constructor; [left; reflexivity|]. constructor. }
  split; [reflexivity|]. split; [reflexivity|]. split; [reflexivity|].
  split; [exact Hbinary|].
  apply (binary_label_groups_partition disjoint_genes "GENE_B");
    [reflexivity | reflexivity | reflexivity | exact Hbinary].
Defined.

(** ** Missing columns and missing rows *)

Lemma getitem_Ok_column (df : Frame) (c : string) (s : Series) :
  getitem df c = Ok s → c ∈ columns df.
Proof.
  unfold columns. induction df as [|[n s0] df IH]; cbn [getitem]; [discriminate|].
  rewrite fmap_cons. destruct (decide (n = c)) as [->|Hne].
  - intros _. by left.
  - intros H. right. by apply IH.
Qed.

Lemma getitem_Raise (df : Frame) (c : string) (e : exn) :
  getitem df c = Raise e → e = KeyError.
Proof.
  induction df as [|[n s0] df IH]; cbn [getitem]; [congruence|].
  by destruct (decide (n = c)).
Qed.

Lemma for_each_Raise {A B} (f : A → result B) (l : list A) (e : exn) :
  for_each f l = Raise e → ∃ a, a ∈ l ∧ f a = Raise e.
Proof.
  induction l as [|a l IH]; cbn [for_each]; [discriminate|].
  destruct (f a) as [b|e'] eqn:Ha; cbn [mbind result_bind].
  - destruct (for_each f l) as [bs|e'']; cbn [mbind result_bind]; [discriminate|].
    intros [= ->]. destruct IH as (a' & Ha' & Hf); [done|]. exists a'. split; [by right|done].
  - intros [= ->]. exists a. split; [by left|done].
Qed.

(** X10: the t-test cell runs exactly when every feature it is given is a
    column of the data; when one is not, [data[common_biomarkers]] raises
    KeyError, and the cell raises nothing else, whatever the labels are. *)
Theorem t_tests_raise_only_KeyError (rt : Runtime) (d : Frame) (y0 : Series)
    (cs : list string) :
  ((∃ df, t_tests rt d y0 cs = Ok df) ↔ ∀ c, c ∈ cs → c ∈ columns d) ∧
  ((∃ c, c ∈ cs ∧ c ∉ columns d) → t_tests rt d y0 cs = Raise KeyError) ∧
  ∀ e, t_tests rt d y0 cs = Raise e → e = KeyError.
Proof.
  assert (Hok : (∃ df, t_tests rt d y0 cs = Ok df) → ∀ c, c ∈ cs → c ∈ columns d).
  { intros [df Hdf] c Hc. unfold t_tests in Hdf.
    apply bind_Ok in Hdf as (fr & Hfr%getitems_Ok & _).
    apply list_elem_of_lookup in Hc as [i Hi].
    destruct (Forall2_lookup_l _ _ _ _ _ Hfr Hi) as (col & _ & Hcol & _).
    by eapply getitem_Ok_column. }
  assert (Hraise : ∀ e, t_tests rt d y0 cs = Raise e → e = KeyError).
  { intros e He. unfold t_tests in He.
    destruct (getitems d cs) as [fr|e'] eqn:Hfr.
    - exfalso. destruct (t_tests_defined rt d y0 cs) as [df Hdf].
      + apply Hok. destruct (t_tests_defined rt d y0 cs) as [df Hdf]; [|by eexists].
        intros c Hc. apply getitems_Ok in Hfr.
        apply list_elem_of_lookup in Hc as [i Hi].
        destruct (Forall2_lookup_l _ _ _ _ _ Hfr Hi) as (col & _ & Hcol & _).
        by eapply getitem_Ok_column.
      + unfold t_tests in Hdf. rewrite Hfr in Hdf. congruence.
    - cbn [mbind result_bind] in He. injection He as ->.
      unfold getitems in Hfr. apply for_each_Raise in Hfr as (c & _ & Hc).
      destruct (getitem d c) as [s|e''] eqn:Hget; cbn [mbind result_bind] in Hc;
        [discriminate|].
      injection Hc as <-. by eapply getitem_Raise. }
  split_and!.
  - split; [exact Hok | apply t_tests_defined].
  - intros (c & Hc & Hmissing).
    destruct (t_tests rt d y0 cs) as [df|e] eqn:Htests.
    + destruct Hmissing. apply Hok; [by eexists | done].
    + by rewrite (Hraise e).
  - exact Hraise.
Qed.

Lemma t_tests_raise_only_KeyError_witness :
  (∃ c, c ∈ ["GENE_A"; "GENE_Z"] ∧ c ∉ columns three_genes) ∧
  ((∃ df, t_tests (toy three_genes elements) three_genes [0; 1; 2]%Q
            ["GENE_A"; "GENE_Z"] = Ok df) ↔
   ∀ c, c ∈ ["GENE_A"; "GENE_Z"] → c ∈ columns three_genes) ∧
  ((∃ c, c ∈ ["GENE_A"; "GENE_Z"] ∧ c ∉ columns three_genes) →
   t_tests (toy three_genes elements) three_genes [0; 1; 2]%Q ["GENE_A"; "GENE_Z"]
   = Raise KeyError) ∧
  ∀ e, t_tests (toy three_genes elements) three_genes [0; 1; 2]%Q
         ["GENE_A"; "GENE_Z"] = Raise e → e = KeyError.
Proof.
  split.
  - exists "GENE_Z". split; compute_done.
  - apply (t_tests_raise_only_KeyError (toy three_genes elements) three_genes
             [0; 1; 2]%Q ["GENE_A"; "GENE_Z"]).
Defined.

Lemma drop_Ok (d : Frame) (cs : list string) (X0 : Frame) :
  drop d cs = Ok X0 → X0 = filter (λ col, col.1 ∉ cs) d.
Proof. unfold drop. destruct (decide _); [|discriminate]. by intros [= <-]. Qed.

Lemma getitem_dropped (d : Frame) (cs : list string) (c : string) :
  getitem (filter (λ col, col.1 ∉ cs) d) c
  = if decide (c ∈ cs) then Raise KeyError else getitem d c.
Proof.
  unfold Frame in *. induction d as [|[n s] d IH].
  - cbn [getitem]. by destruct (decide (c ∈ cs)).
  - rewrite filter_cons. cbn [fst getitem].
    destruct (decide (n ∉ cs)) as [Hkeep|Hdrop]; cbn [getitem].
    + destruct (decide (n = c)) as [->|Hne]; [|exact IH].
      by rewrite decide_False.
    + rewrite IH. destruct (decide (n = c)) as [->|Hne]; [|done].
      destruct (decide (c ∈ cs)) as [_|Hout]; [done|]. by destruct Hdrop.
Qed.

Lemma columns_dropped (d : Frame) (cs : list string) :
  columns (filter (λ col, col.1 ∉ cs) d) = filter (λ c, c ∉ cs) (columns d).
Proof.
  unfold columns, Frame in *. induction d as [|[n s] d IH]; [done|].
  rewrite fmap_cons, !filter_cons. cbn [fst].
  destruct (decide (n ∉ cs)); [|exact IH]. by rewrite fmap_cons, IH.
Qed.

(** X11: the feature frame [X] has the columns of the data without
    'label', in the same order and with the same values; asking [X] for
    'label' raises KeyError, and [y] is the column 'label' of the data. *)
Theorem X_is_data_without_label (rt : Runtime) (g : Globals) :
  run rt = Ok g →
  columns (X g) = filter (λ c, c ≠ "label") (columns (data g)) ∧
  (∀ c, c ≠ "label" → getitem (X g) c = getitem (data g) c) ∧
  getitem (X g) "label" = Raise KeyError ∧
  getitem (data g) "label" = Ok (y g).
Proof.
  intros Hrun%run_Completed. destruct Hrun as [_ HX Hy _ _ _ _ _ _ _ _ _].
  apply drop_Ok in HX. rewrite HX. split_and!.
  - rewrite columns_dropped. apply list_filter_iff. intros c.
    rewrite list_elem_of_singleton. done.
  - intros c Hc. rewrite getitem_dropped, decide_False; [done|].
    by rewrite list_elem_of_singleton.
  - rewrite getitem_dropped, decide_True; [done|]. by apply list_elem_of_singleton.
  - exact Hy.
Qed.

Lemma X_is_data_without_label_witness :
  ∃ g, run (toy three_genes elements) = Ok g ∧
    columns (X g) = filter (λ c, c ≠ "label") (columns (data g)) ∧
    (∀ c, c ≠ "label" → getitem (X g) c = getitem (data g) c) ∧
    getitem (X g) "label" = Raise KeyError ∧
    getitem (data g) "label" = Ok (y g).
Proof.
  eexists. split; [vm_compute; reflexivity|].
  apply (X_is_data_without_label (toy three_genes elements)).
  vm_compute; reflexivity.
Defined.

(** X12: looking a feature's score up in a table raises IndexError exactly
    when no row of the table has that feature, and raises nothing else;
    when there are rows, the score returned is that of the first of them
    in the table's order. *)
Theorem score_of_first_row (t : Table) (f : string) :
  (score t f = Raise IndexError ↔ f ∉ feature_set t) ∧
  (∀ e, score t f = Raise e → e = IndexError) ∧
  (∀ a, score t f = Ok a ↔
        ∃ i, t !! i = Some (f, a) ∧
             ∀ j r, j < i → t !! j = Some r → Feature r ≠ f).
Proof.
  assert (Hfirst : ∀ a, score t f = Ok a ↔
            ∃ i, t !! i = Some (f, a) ∧
                 ∀ j r, j < i → t !! j = Some r → Feature r ≠ f).
  { intros a. unfold score, Table in *. induction t as [|[f' a'] t IH].
    - rewrite filter_nil. split; [discriminate|]. by intros (i & Hi & _).
    - rewrite filter_cons. cbn [Feature fst].
      destruct (decide (f' = f)) as [->|Hne].
      + cbn [Importance snd]. split.
        * intros [= ->]. exists 0. split; [done|]. intros j r Hj. lia.
        * intros ([|i] & Hi & Hbefore).
          -- by injection Hi as ->.
          -- destruct (Hbefore 0 (f, a')); [lia|done|done].
      + rewrite IH. split.
        * intros (i & Hi & Hbefore). exists (S i). split; [done|].
          intros [|j] r Hj Hr.
          -- injection Hr as <-. done.
          -- apply (Hbefore j); [lia|done].
        * intros ([|i] & Hi & Hbefore).
          -- injection Hi as -> ->. done.
          -- exists i. split; [done|]. intros j r Hj Hr.
             apply (Hbefore (S j)); [lia|done]. }
  assert (Hraise : ∀ e, score t f = Raise e → e = IndexError).
  { intros e. unfold score. destruct (filter _ t); [|discriminate]. congruence. }
  split_and!; [|exact Hraise|exact Hfirst].
  split.
  - intros Hnone Hin. apply score_defined in Hin as [a Ha]. congruence.
  - intros Hout. destruct (score t f) as [a|e] eqn:Hscore.
    + destruct Hout. apply elem_of_feature_set. exists a. by apply score_Ok.
    + by rewrite (Hraise e).
Qed.

Lemma score_of_first_row_witness :
  (score [("GENE_C", 2%Q); ("GENE_A", 1%Q)] "GENE_B" = Raise IndexError ↔
   "GENE_B" ∉ feature_set [("GENE_C", 2%Q); ("GENE_A", 1%Q)]) ∧
  (∀ e, score [("GENE_C", 2%Q); ("GENE_A", 1%Q)] "GENE_B" = Raise e →
        e = IndexError) ∧
  (∀ a, score [("GENE_C", 2%Q); ("GENE_A", 1%Q)] "GENE_B" = Ok a ↔
        ∃ i, [("GENE_C", 2%Q); ("GENE_A", 1%Q)] !! i = Some ("GENE_B", a) ∧
             ∀ j r, j < i → [("GENE_C", 2%Q); ("GENE_A", 1%Q)] !! j = Some r →
                    Feature r ≠ "GENE_B").
Proof. apply (score_of_first_row [("GENE_C", 2%Q); ("GENE_A", 1%Q)] "GENE_B"). Defined.

(** X13: in a frame whose columns are as long as its label column, the
    group a t-test takes for a label value has one value per sample with
    that label, whatever the feature: the sizes of the two groups are the
    numbers of samples labelled 0 and labelled 1. *)
Theorem group_size_is_class_count (frame : Frame) (v : Q) (f : string)
    (label col : Series) :
  getitem frame "label" = Ok label →
  getitem frame f = Ok col →
  length col = length label →
  ∃ group, label_group frame v f = Ok group ∧
           length group = length (filter (λ l, (l == v)%Q) label).
Proof.
  intros Hlabel Hcol Hlen. exists (boolean_index (series_eq label v) col).
  split; [by apply label_group_Ok|].
  unfold series_eq, Series in *. clear Hlabel Hcol. revert col Hlen.
  induction label as [|l label IH]; intros [|c col] Hlen; try done.
  rewrite fmap_cons, filter_cons. cbn [boolean_index].
  injection Hlen as Hlen. specialize (IH col Hlen).
  destruct (Qeq_bool l v) eqn:Hlv.
  - apply Qeq_bool_eq in Hlv. rewrite decide_True by done. cbn [length]. by rewrite IH.
  - apply Qeq_bool_neq in Hlv. by rewrite decide_False.
Qed.

Lemma group_size_is_class_count_witness :
  getitem three_genes "label" = Ok [0; 1; 2]%Q ∧
  getitem three_genes "GENE_C" = Ok [2; 2; 5]%Q ∧
  length [2; 2; 5]%Q = length [0; 1; 2]%Q ∧
  ∃ group, label_group three_genes 1 "GENE_C" = Ok group ∧
           length group = length (filter (λ l, (l == 1)%Q) [0; 1; 2]%Q).
Proof.
  split; [reflexivity|]. split; [reflexivity|]. split; [reflexivity|].
  apply (group_size_is_class_count three_genes 1 "GENE_C" [0; 1; 2]%Q [2; 2; 5]%Q);
    reflexivity.
Defined.

(** ** The shape of the two files *)

(** X14: the two tables tell of the same features in the same order: the
    i-th row of the score table and the i-th row of the t-test table start
    with the same feature name, so the two files can be read side by
    side. *)
Theorem tables_are_row_aligned (rt : Runtime) (g : Globals) :
  run rt = Ok g →
  Forall2 (λ scores tests, ∃ f, head scores = Some (Str f) ∧ head tests = Some (Str f))
    (df_rows (selected_features g)) (df_rows (t_test_results_df g)).
Proof.
  intros Hrun%run_Completed.
  destruct Hrun as [_ _ Hy _ _ _ _ _ Hscores Hcommon Htests _].
  apply compile_scores_rows in Hscores. rewrite <- Hcommon in Hscores.
  apply t_tests_rows in Htests; [|exact Hy].
  apply Forall2_same_length_lookup. split.
  - by rewrite <- (Forall2_length _ _ _ Hscores), <- (Forall2_length _ _ _ Htests).
  - intros i scores tests Hi Hj.
    destruct (Forall2_lookup_r _ _ _ _ _ Hscores Hi) as (f & Hf & a & b & c & -> & _).
    destruct (Forall2_lookup_r _ _ _ _ _ Htests Hj) as (f' & Hf' & g1 & g2 & _ & _ & ->).
    assert (f' = f) as -> by congruence. by exists f.
Qed.

Lemma tables_are_row_aligned_witness :
  ∃ g, run (toy three_genes elements) = Ok g ∧
    Forall2 (λ scores tests, ∃ f, head scores = Some (Str f) ∧ head tests = Some (Str f))
      (df_rows (selected_features g)) (df_rows (t_test_results_df g)).
Proof.
  eexists. split; [vm_compute; reflexivity|].
  apply (tables_are_row_aligned (toy three_genes elements)).
  vm_compute; reflexivity.
Defined.


